(** * enrich-exporter: the report-to-PDF endpoint and the health check

    A shallow embedding of [api/export] (fetch a report, render it as HTML,
    print it to PDF with a headless browser, upload the PDF next to the
    report) and of [api/hello].

    Conventions of the embedding.

    - A JavaScript string is a [string] of bytes holding its UTF-8
      encoding.  Every character the program compares against (the five
      characters [escapeHtml] replaces, the slash and the literals of the
      path pattern) is ASCII, and an ASCII byte never occurs inside a
      multi-byte UTF-8 sequence, so replacing and matching byte by byte
      agrees with doing so on UTF-16 code units.
    - A JavaScript value is a [value]: what [JSON.parse] can build, plus
      [undefined] for absent properties.
    - Code that can throw returns a [result]; the request handlers, which
      talk to the response object and to external services, run in the
      monad [M] over the state [world]. *)

From Stdlib Require Import String Ascii List ZArith Bool Lia.
From Stdlib Require Import Numbers.DecimalString.
Import ListNotations.
Local Open Scope list_scope.
Local Open Scope string_scope.

(** ** Strings *)

(** The double quote, which a string literal of this file cannot hold. *)
Definition dq : string := String "034"%char "".

(** A line feed, written out where the source has a line break inside a
    template literal. *)
Definition nl : string := String "010"%char "".

(** [occurs c s]: the character [c] occurs in [s]. *)
Fixpoint occurs (c : ascii) (s : string) : bool :=
  match s with
  | EmptyString => false
  | String a s' => Ascii.eqb a c || occurs c s'
  end.

(** [contains p s]: [p] is a substring of [s] ([String.prototype.includes]). *)
Fixpoint contains (p s : string) : bool :=
  String.prefix p s ||
  match s with
  | EmptyString => false
  | String _ s' => contains p s'
  end.

(** ** Regular expressions

    The fragment of the regular-expression language the program uses: literal
    characters, a character class, a greedy [+] over a class, numbered
    capture groups, sequencing and the end anchor [$]. *)

Inductive cls : Type :=
| OneOf (cs : string)      (* [abc]  *)
| NoneOf (cs : string).    (* [^abc] *)

Definition accepts (c : cls) (a : ascii) : bool :=
  match c with
  | OneOf cs => occurs a cs
  | NoneOf cs => negb (occurs a cs)
  end.

Inductive regex : Type :=
| RLit (p : string)               (* a run of literal characters *)
| RSet (c : cls)                  (* one character of a class *)
| RPlus (c : cls)                 (* one or more, greedy *)
| RGroup (n : nat) (r : regex)    (* the n-th capture group *)
| RSeq (r1 r2 : regex)
| REnd.                           (* $ without the m flag *)

(** Captures, most recent first; [capture n] is [m[n]]. *)
Definition captures : Type := list (nat * string).

Fixpoint capture (n : nat) (cs : captures) : option string :=
  match cs with
  | [] => None
  | (k, s) :: cs' => if Nat.eqb k n then Some s else capture n cs'
  end.

(** A backtracking matcher in continuation-passing style.  [k] receives the
    text consumed, the text that remains and the captures so far; a [None]
    from [k] makes the matcher try its next alternative. *)

Fixpoint match_lit (p s : string) : option string :=
  match p, s with
  | EmptyString, _ => Some s
  | String a p', String b s' => if Ascii.eqb a b then match_lit p' s' else None
  | String _ _, EmptyString => None
  end.

(** Zero or more characters of [c], longest first. *)
Fixpoint match_star {R : Type} (c : cls) (s : string)
    (k : string -> string -> option R) : option R :=
  match s with
  | String a s' =>
      if accepts c a then
        match match_star c s' (fun t rest => k (String a t) rest) with
        | Some r => Some r
        | None => k "" s
        end
      else k "" s
  | EmptyString => k "" s
  end.

Fixpoint match_re {R : Type} (r : regex) (s : string) (cs : captures)
    (k : string -> string -> captures -> option R) : option R :=
  match r with
  | RLit p =>
      match match_lit p s with
      | Some rest => k p rest cs
      | None => None
      end
  | RSet c =>
      match s with
      | String a s' => if accepts c a then k (String a "") s' cs else None
      | EmptyString => None
      end
  | RPlus c =>
      match s with
      | String a s' =>
          if accepts c a
          then match_star c s' (fun t rest => k (String a t) rest cs)
          else None
      | EmptyString => None
      end
  | RGroup n r1 =>
      match_re r1 s cs (fun t rest cs' => k t rest ((n, t) :: cs'))
  | RSeq r1 r2 =>
      match_re r1 s cs (fun t1 rest1 cs1 =>
        match_re r2 rest1 cs1 (fun t2 rest2 cs2 => k (t1 ++ t2) rest2 cs2))
  | REnd =>
      match s with
      | EmptyString => k "" "" cs
      | String _ _ => None
      end
  end.

(** [RegExp.prototype.exec] for a pattern without flags: the leftmost start
    position at which the pattern matches; group 0 is the whole match. *)
Fixpoint regex_exec (r : regex) (s : string) : option captures :=
  match match_re r s [] (fun t _ cs => Some ((0, t) :: cs)) with
  | Some cs => Some cs
  | None =>
      match s with
      | String _ s' => regex_exec r s'
      | EmptyString => None
      end
  end.

(** [String.prototype.replace] with a global pattern that is one character
    class and a callback: every character of the class is replaced by what
    the callback returns for it, the others are kept. *)
Fixpoint replace_all (c : cls) (f : string -> string) (s : string) : string :=
  match s with
  | EmptyString => EmptyString
  | String a s' =>
      if accepts c a
      then f (String a "") ++ replace_all c f s'
      else String a (replace_all c f s')
  end.

(** ** JavaScript values *)

#[local] Set Warnings "-register-all".

(** [VNum] carries the integral numbers, which is all the embedding needs of
    a number: the program only tests a number for zero and prints it, and
    an integral double below 10^21 prints as its decimal digits. *)
Inductive value : Type :=
| VUndefined
| VNull
| VBool (b : bool)
| VNum (n : Z)
| VStr (s : string)
| VArr (items : list value)
| VObj (props : list (string * value)).   (* own properties, in insertion order *)

(** A thrown value is a [value]; an [Error] object is the object holding its
    [name] and [message]. *)
Definition js_error (name message : string) : value :=
  VObj [("name", VStr name); ("message", VStr message)].

Inductive result (A : Type) : Type :=
| Ok (a : A)
| Throw (e : value).
Arguments Ok {A} a.
Arguments Throw {A} e.

Definition rbind {A B : Type} (m : result A) (f : A -> result B) : result B :=
  match m with
  | Ok a => f a
  | Throw e => Throw e
  end.

Declare Scope js_scope.
Delimit Scope js_scope with js.
Notation "x <- m ;; k" := (rbind m (fun x => k))
  (at level 61, m at next level, right associativity) : js_scope.

(** [try { body } catch { handler }], for a handler that ignores the
    exception. *)
Definition try_catch {A : Type} (body : result A) (handler : result A) : result A :=
  match body with
  | Ok a => Ok a
  | Throw _ => handler
  end.

(** ToBoolean. *)
Definition truthy (v : value) : bool :=
  match v with
  | VUndefined | VNull => false
  | VBool b => b
  | VNum n => negb (Z.eqb n 0)
  | VStr s => negb (String.eqb s "")
  | VArr _ | VObj _ => true
  end.

(** [a || b] and [a && b] on values, [a ?? b]. *)
Definition jor (a b : value) : value := if truthy a then a else b.
Definition jand (a b : value) : value := if truthy a then b else a.

Definition nullish (v : value) : bool :=
  match v with
  | VUndefined | VNull => true
  | _ => false
  end.

Definition coalesce (a b : value) : value := if nullish a then b else a.

(** Own-property lookup. *)
Fixpoint lookup (k : string) (props : list (string * value)) : option value :=
  match props with
  | [] => None
  | (k', v) :: rest => if String.eqb k' k then Some v else lookup k rest
  end.

(** [v.k] for the property names this program reads.  None of them is a
    property of a primitive wrapper, of an array or of [Object.prototype],
    so only an object's own properties can answer; reading a property of
    [undefined] or [null] throws. *)
Definition member (v : value) (k : string) : result value :=
  match v with
  | VUndefined =>
      Throw (js_error "TypeError" ("Cannot read properties of undefined (reading '" ++ k ++ "')"))
  | VNull =>
      Throw (js_error "TypeError" ("Cannot read properties of null (reading '" ++ k ++ "')"))
  | VObj props =>
      match lookup k props with
      | Some x => Ok x
      | None => Ok VUndefined
      end
  | _ => Ok VUndefined
  end.

(** [v?.k]. *)
Definition opt_member (v : value) (k : string) : result value :=
  if nullish v then Ok VUndefined else member v k.

Definition Z_to_string (n : Z) : string := NilZero.string_of_int (Z.to_int n).

(** ToString, the conversion [String(v)] applies.  An array is joined with
    commas, [undefined] and [null] items giving the empty string.  A plain
    object answers through [Object.prototype.toString] unless an own
    property shadows it: own properties built by [JSON.parse] are never
    callable, and [Object.prototype.valueOf] returns the object itself, so
    the conversion then throws. *)
Fixpoint ToString (v : value) : result string :=
  match v with
  | VUndefined => Ok "undefined"
  | VNull => Ok "null"
  | VBool true => Ok "true"
  | VBool false => Ok "false"
  | VNum n => Ok (Z_to_string n)
  | VStr s => Ok s
  | VArr items =>
      (fix join (l : list value) : result string :=
         match l with
         | [] => Ok ""
         | x :: rest =>
             let item :=
               match x with
               | VUndefined | VNull => Ok ""
               | _ => ToString x
               end in
             match rest with
             | [] => item
             | _ :: _ =>
                 match item with
                 | Throw e => Throw e
                 | Ok a =>
                     match join rest with
                     | Throw e => Throw e
                     | Ok b => Ok (a ++ "," ++ b)
                     end
                 end
             end
         end) items
  | VObj props =>
      match lookup "toString" props with
      | Some _ => Throw (js_error "TypeError" "Cannot convert object to primitive value")
      | None => Ok "[object Object]"
      end
  end.

(** ** The HTML renderer *)

(** [escapeHtml]: the character class of its pattern (ampersand, angle
    brackets, double and single quote, with the g flag) and the table of its
    callback. *)
Definition html_special : cls := OneOf ("&<>" ++ dq ++ "'").

Definition entities : list (string * string) :=
  [("&", "&amp;"); ("<", "&lt;"); (">", "&gt;"); (dq, "&quot;"); ("'", "&#39;")].

Fixpoint assoc (k : string) (t : list (string * string)) : option string :=
  match t with
  | [] => None
  | (k', e) :: rest => if String.eqb k' k then Some e else assoc k rest
  end.

(** The callback [(m) => table[m]]; a key the table lacks would give
    [undefined], which [replace] converts to text. *)
Definition entity (m : string) : string :=
  match assoc m entities with
  | Some e => e
  | None => "undefined"
  end.

Definition escapeHtml (s : value) : result string :=
  (str <- ToString (jor s (VStr "")) ;;
   Ok (replace_all html_special entity str))%js.

(** [escapeAttr]: [escapeHtml], then every double quote replaced by the
    text %22. *)
Definition escapeAttr (s : value) : result string :=
  (e <- escapeHtml s ;;
   Ok (replace_all (OneOf dq) (fun _ => "%22") e))%js.

(** The substitutions of the template literal, in source order. *)
Record holes : Type := {
  title : string;           (* escapeHtml(h.business_name || "Business Overview") *)
  name : string;            (* escapeHtml(h.business_name || "Business") *)
  city : string;            (* h.location_city ? escapeHtml(h.location_city) : "" *)
  comma : string;           (* h.location_city && h.location_country ? ", " : "" *)
  country : string;         (* h.location_country ? escapeHtml(h.location_country) : "" *)
  website : string;         (* h.website_url ? ` • <a href=...>...</a>` : "" *)
  email : string;           (* h.contact_email ? ` • ...` : "" *)
  pill : string;            (* escapeHtml(badge) *)
  summary : string;         (* escapeHtml(s.overview?.ai_summary || "") *)
  goals : string;           (* escapeHtml(s.overview?.goals || "") *)
  certifications : string;  (* escapeHtml(s.overview?.certifications || "") *)
  operations : string;      (* escapeHtml(s.operations?.information || "") *)
  unwto : string;           (* escapeHtml(s.standards?.global_unwto || "") *)
  ctc : string;             (* escapeHtml(s.standards?.national_ctc || "") *)
  local_impact : string;    (* escapeHtml(s.local_impact?.information || "") *)
  people : string;          (* escapeHtml(s.people_partnerships?.information || "") *)
  suppliers : string;       (* escapeHtml(s.insights?.local_suppliers || "") *)
  employee : string;        (* escapeHtml(s.insights?.employee || "") *)
  economic : string;        (* escapeHtml(s.insights?.economic || "") *)
  rec_goals : string;       (* escapeHtml(s.recommendations?.goals || "") *)
  rec_operations : string   (* escapeHtml(s.recommendations?.operations || "") *)
}.

(** The template literal of [renderHTML] as a function of its substitutions:
    the literal chunks line by line, joined by the line breaks of the
    source.  The literal opens with a line break and ends after [</html>]. *)
Definition page (x : holes) : string :=
  String.concat nl [
    "";
    "<!doctype html>";
    "<html>";
    "<head>";
    "<meta charset=" ++ dq ++ "utf-8" ++ dq ++ "/>";
    "<title>" ++ title x ++ "</title>";
    "<style>";
    "  body { font-family: Inter, system-ui, -apple-system, Segoe UI, Roboto, Arial, sans-serif; color: #111; padding: 16px; }";
    "  .header { display:flex; justify-content:space-between; align-items:flex-start; border-bottom:1px solid #e5e7eb; padding:16px 0; }";
    "  .h-title { font-size:20px; font-weight:700; }";
    "  .h-meta { color:#555; font-size:12px; }";
    "  .section { padding:12px 0; }";
    "  .k { font-weight:600; margin-bottom:4px; }";
    "  .pill { display:inline-block; padding:4px 8px; border-radius:999px; font-size:12px; background:#f3f4f6; }";
    "  .grid-2 { display:grid; grid-template-columns: 1fr 1fr; gap:16px; }";
    "  @media print { [data-no-print=" ++ dq ++ "true" ++ dq ++ "]{ display:none !important; } }";
    "</style>";
    "</head>";
    "<body>";
    "  <div class=" ++ dq ++ "header" ++ dq ++ ">";
    "    <div>";
    "      <div class=" ++ dq ++ "h-title" ++ dq ++ ">" ++ name x ++ "</div>";
    "      <div class=" ++ dq ++ "h-meta" ++ dq ++ ">";
    "        " ++ city x ++ comma x ++ country x;
    "        " ++ website x;
    "        " ++ email x;
    "      </div>";
    "    </div>";
    "    <div><span class=" ++ dq ++ "pill" ++ dq ++ ">" ++ pill x ++ "</span></div>";
    "  </div>";
    "";
    "  <div class=" ++ dq ++ "section" ++ dq ++ ">";
    "    <div class=" ++ dq ++ "k" ++ dq ++ ">Executive Summary</div>";
    "    <div>" ++ summary x ++ "</div>";
    "  </div>";
    "";
    "  <div class=" ++ dq ++ "grid-2" ++ dq ++ ">";
    "    <div class=" ++ dq ++ "section" ++ dq ++ ">";
    "      <div class=" ++ dq ++ "k" ++ dq ++ ">Goals</div>";
    "      <div>" ++ goals x ++ "</div>";
    "    </div>";
    "    <div class=" ++ dq ++ "section" ++ dq ++ ">";
    "      <div class=" ++ dq ++ "k" ++ dq ++ ">Certifications</div>";
    "      <div>" ++ certifications x ++ "</div>";
    "    </div>";
    "  </div>";
    "";
    "  <div class=" ++ dq ++ "grid-2" ++ dq ++ ">";
    "    <div class=" ++ dq ++ "section" ++ dq ++ ">";
    "      <div class=" ++ dq ++ "k" ++ dq ++ ">Operations</div>";
    "      <div>" ++ operations x ++ "</div>";
    "    </div>";
    "    <div class=" ++ dq ++ "section" ++ dq ++ ">";
    "      <div class=" ++ dq ++ "k" ++ dq ++ ">Standards (UN / National)</div>";
    "      <div>" ++ unwto x ++ "</div>";
    "      <div>" ++ ctc x ++ "</div>";
    "    </div>";
    "  </div>";
    "";
    "  <div class=" ++ dq ++ "grid-2" ++ dq ++ ">";
    "    <div class=" ++ dq ++ "section" ++ dq ++ ">";
    "      <div class=" ++ dq ++ "k" ++ dq ++ ">Local Impact</div>";
    "      <div>" ++ local_impact x ++ "</div>";
    "    </div>";
    "    <div class=" ++ dq ++ "section" ++ dq ++ ">";
    "      <div class=" ++ dq ++ "k" ++ dq ++ ">People & Partnerships</div>";
    "      <div>" ++ people x ++ "</div>";
    "    </div>";
    "  </div>";
    "";
    "  <div class=" ++ dq ++ "grid-2" ++ dq ++ ">";
    "    <div class=" ++ dq ++ "section" ++ dq ++ ">";
    "      <div class=" ++ dq ++ "k" ++ dq ++ ">Insight — Local Suppliers</div>";
    "      <div>" ++ suppliers x ++ "</div>";
    "    </div>";
    "    <div class=" ++ dq ++ "section" ++ dq ++ ">";
    "      <div class=" ++ dq ++ "k" ++ dq ++ ">Insight — Employee</div>";
    "      <div>" ++ employee x ++ "</div>";
    "    </div>";
    "  </div>";
    "";
    "  <div class=" ++ dq ++ "section" ++ dq ++ ">";
    "    <div class=" ++ dq ++ "k" ++ dq ++ ">Insight — Economic</div>";
    "    <div>" ++ economic x ++ "</div>";
    "  </div>";
    "";
    "  <div class=" ++ dq ++ "grid-2" ++ dq ++ ">";
    "    <div class=" ++ dq ++ "section" ++ dq ++ ">";
    "      <div class=" ++ dq ++ "k" ++ dq ++ ">Recommendations — Goals</div>";
    "      <div>" ++ rec_goals x ++ "</div>";
    "    </div>";
    "    <div class=" ++ dq ++ "section" ++ dq ++ ">";
    "      <div class=" ++ dq ++ "k" ++ dq ++ ">Recommendations — Operations</div>";
    "      <div>" ++ rec_operations x ++ "</div>";
    "    </div>";
    "  </div>";
    "</body>";
    "</html>"
  ].

(** [s.<section>?.<field>]. *)
Definition section_field (s : value) (section field : string) : result value :=
  (o <- member s section ;; opt_member o field)%js.

(** [escapeHtml(s.<section>?.<field> || "")]. *)
Definition section_text (s : value) (section field : string) : result string :=
  (v <- section_field s section field ;; escapeHtml (jor v (VStr "")))%js.

(** The substitutions of [renderHTML] for a document.  A template literal
    evaluates its substitutions from left to right; the first one to throw
    ends the evaluation. *)
Definition substitutions (content : value) : result holes :=
  (header <- member content "header" ;;
   let h := jor header (VObj []) in
   sections <- member content "sections" ;;
   let s := jor sections (VObj []) in
   b <- section_field s "overview" "growth_transparency_badge" ;;
   let badge := jor b (VStr "Initiated") in
   x_title <- (v <- member h "business_name" ;;
               escapeHtml (jor v (VStr "Business Overview"))) ;;
   x_name <- (v <- member h "business_name" ;;
              escapeHtml (jor v (VStr "Business"))) ;;
   x_city <- (c <- member h "location_city" ;;
              if truthy c
              then (v <- member h "location_city" ;; escapeHtml v)
              else Ok "") ;;
   x_comma <- (c <- member h "location_city" ;;
               both <- (if truthy c then member h "location_country" else Ok c) ;;
               Ok (if truthy both then ", " else "")) ;;
   x_country <- (c <- member h "location_country" ;;
                 if truthy c
                 then (v <- member h "location_country" ;; escapeHtml v)
                 else Ok "") ;;
   x_website <- (c <- member h "website_url" ;;
                 if truthy c
                 then (u <- member h "website_url" ;;
                       href <- escapeAttr u ;;
                       u' <- member h "website_url" ;;
                       text <- escapeHtml u' ;;
                       Ok (" • <a href=" ++ dq ++ href ++ dq ++ ">" ++ text ++ "</a>"))
                 else Ok "") ;;
   x_email <- (c <- member h "contact_email" ;;
               if truthy c
               then (v <- member h "contact_email" ;;
                     text <- escapeHtml v ;;
                     Ok (" • " ++ text))
               else Ok "") ;;
   x_pill <- escapeHtml badge ;;
   x_summary <- section_text s "overview" "ai_summary" ;;
   x_goals <- section_text s "overview" "goals" ;;
   x_certifications <- section_text s "overview" "certifications" ;;
   x_operations <- section_text s "operations" "information" ;;
   x_unwto <- section_text s "standards" "global_unwto" ;;
   x_ctc <- section_text s "standards" "national_ctc" ;;
   x_local_impact <- section_text s "local_impact" "information" ;;
   x_people <- section_text s "people_partnerships" "information" ;;
   x_suppliers <- section_text s "insights" "local_suppliers" ;;
   x_employee <- section_text s "insights" "employee" ;;
   x_economic <- section_text s "insights" "economic" ;;
   x_rec_goals <- section_text s "recommendations" "goals" ;;
   x_rec_operations <- section_text s "recommendations" "operations" ;;
   Ok {|
     title := x_title; name := x_name; city := x_city; comma := x_comma;
     country := x_country; website := x_website; email := x_email;
     pill := x_pill; summary := x_summary; goals := x_goals;
     certifications := x_certifications; operations := x_operations;
     unwto := x_unwto; ctc := x_ctc; local_impact := x_local_impact;
     people := x_people; suppliers := x_suppliers; employee := x_employee;
     economic := x_economic; rec_goals := x_rec_goals;
     rec_operations := x_rec_operations |})%js.

(** The template literal: its substitutions, then the concatenation with
    its chunks. *)
Definition renderHTML (content : value) : result string :=
  (x <- substitutions content ;; Ok (page x))%js.

(** ** JSON.stringify *)

Definition hex_digit (n : nat) : string :=
  String.substring n 1 "0123456789abcdef".

Definition backslash : string := String "092"%char "".

(** QuoteJSONString: the escapes of one character. *)
Definition quote_json_char (a : ascii) : string :=
  let n := nat_of_ascii a in
  if Nat.eqb n 8 then backslash ++ "b"
  else if Nat.eqb n 9 then backslash ++ "t"
  else if Nat.eqb n 10 then backslash ++ "n"
  else if Nat.eqb n 12 then backslash ++ "f"
  else if Nat.eqb n 13 then backslash ++ "r"
  else if Nat.eqb n 34 then backslash ++ dq
  else if Nat.eqb n 92 then backslash ++ backslash
  else if Nat.ltb n 32
       then backslash ++ "u00" ++ hex_digit (n / 16) ++ hex_digit (n mod 16)
  else String a "".

Fixpoint quote_json_chars (s : string) : string :=
  match s with
  | EmptyString => EmptyString
  | String a s' => quote_json_char a ++ quote_json_chars s'
  end.

Definition QuoteJSONString (s : string) : string :=
  dq ++ quote_json_chars s ++ dq.

(** [JSON.stringify(v)] without replacer or indentation; [None] is the
    [undefined] it returns for [undefined].  A property whose value is
    [undefined] is left out, an array item that is [undefined] prints as
    [null]. *)
Fixpoint JSON_stringify (v : value) : option string :=
  match v with
  | VUndefined => None
  | VNull => Some "null"
  | VBool true => Some "true"
  | VBool false => Some "false"
  | VNum n => Some (Z_to_string n)
  | VStr s => Some (QuoteJSONString s)
  | VArr items =>
      let texts :=
        (fix each (l : list value) : list string :=
           match l with
           | [] => []
           | x :: rest =>
               match JSON_stringify x with
               | Some t => t :: each rest
               | None => "null" :: each rest
               end
           end) items in
      Some ("[" ++ String.concat "," texts ++ "]")
  | VObj props =>
      let texts :=
        (fix each (l : list (string * value)) : list string :=
           match l with
           | [] => []
           | (k, x) :: rest =>
               match JSON_stringify x with
               | Some t => (QuoteJSONString k ++ ":" ++ t) :: each rest
               | None => each rest
               end
           end) props in
      Some ("{" ++ String.concat "," texts ++ "}")
  end.

(** ** Requests, responses and the outside world *)

(** The body of an export request, typed as the handler's cast declares it:
    [{ json_url?: string; format?: string }]. *)
Record payload : Type := {
  json_url : option string;
  format : option string
}.

Record request : Type := {
  method : string;
  req_headers : list (string * string);
  body : option payload     (* [None]: no body, for [req.body || {}] *)
}.

Inductive sent_body : Type :=
| Text (s : string)     (* res.send(s) *)
| Json (v : value).     (* res.json(v) *)

Record response : Type := {
  status : Z;
  res_headers : list (string * string);
  sent : sent_body
}.

Definition buffer : Type := list Byte.byte.

Record URL : Type := { pathname : string }.

Record fetch_response : Type := {
  ok : bool;
  json : result value     (* r.json() *)
}.

(** What the handler does to the outside, in the order it does it. *)
Inductive event : Type :=
| EFetch (url : string)
| ELaunch (options : value)
| ENewPage
| ESetContent (html : string) (options : value)
| EPdf (options : value)
| EClose
| EUpload (bucket path : string) (data : buffer) (options : value)
| ELog (e : value)               (* console.error *)
| ESend (r : response).

(** The services the handlers call, as the outcomes they give: the URL
    constructor, the environment, [fetch], the Chromium package, Puppeteer
    and the Supabase storage client. *)
Record platform : Type := {
  new_URL : string -> result URL;
  SUPABASE_BUCKET : option string;
  fetch : string -> result fetch_response;
  chromium_args : value;
  chromium_executablePath : result value;
  puppeteer_launch : value -> result unit;
  browser_newPage : result unit;
  page_setContent : string -> value -> result unit;
  page_pdf : value -> result buffer;
  browser_close : result unit;
  storage_upload : string -> string -> buffer -> value -> result value;
  storage_getPublicUrl : string -> string -> string
}.

(** The state a handler runs in: the headers set on the response object and
    the events so far, oldest first. *)
Record world : Type := {
  headers : list (string * string);
  trace : list event
}.

Definition M (A : Type) : Type := world -> result A * world.

Definition ret {A : Type} (a : A) : M A := fun w => (Ok a, w).

Definition throw {A : Type} (e : value) : M A := fun w => (Throw e, w).

Definition bind {A B : Type} (m : M A) (f : A -> M B) : M B :=
  fun w =>
    match m w with
    | (Ok a, w') => f a w'
    | (Throw e, w') => (Throw e, w')
    end.

Declare Scope io_scope.
Delimit Scope io_scope with io.
Notation "x <- m ;; k" := (bind m (fun x => k))
  (at level 61, m at next level, right associativity) : io_scope.
Notation "m ;; k" := (bind m (fun _ => k))
  (at level 61, right associativity) : io_scope.

(** A computation that only throws or returns. *)
Definition lift {A : Type} (r : result A) : M A := fun w => (r, w).

(** [try { body } catch (e) { handler e }]. *)
Definition try_catch_io {A : Type} (body : M A) (handler : value -> M A) : M A :=
  fun w =>
    match body w with
    | (Ok a, w') => (Ok a, w')
    | (Throw e, w') => handler e w'
    end.

Definition emit (e : event) : M unit :=
  fun w => (Ok tt, {| headers := headers w; trace := (trace w ++ [e])%list |}).

(** A call to an outside service: the call is recorded, then its outcome
    is returned or thrown. *)
Definition call {A : Type} (e : event) (outcome : result A) : M A :=
  (emit e ;; lift outcome)%io.

(** [res.setHeader(k, v)]: a header set twice keeps the last value. *)
Definition setHeader (k v : string) : M unit :=
  fun w =>
    (Ok tt,
     {| headers :=
          (filter (fun kv => negb (String.eqb (fst kv) k)) (headers w) ++ [(k, v)])%list;
        trace := trace w |}).

(** [res.status(code).send(text)] and [res.status(code).json(v)]: the
    response goes out with the headers set so far. *)
Definition respond (code : Z) (c : sent_body) : M response :=
  fun w =>
    let r := {| status := code; res_headers := headers w; sent := c |} in
    (Ok r, {| headers := headers w; trace := (trace w ++ [ESend r])%list |}).

Definition error_body (code : string) : sent_body :=
  Json (VObj [("error", VStr code)]).

Definition fresh : world := {| headers := []; trace := [] |}.

(** ** The path resolver *)

(** The pattern of [parseReportPath]: a slash, the literal enrich-reports,
    a slash, group 1 (one or more characters other than a slash), a slash,
    group 2 (the same), the literal /report.json, the end of the input. *)
Definition report_path_re : regex :=
  RSeq (RLit "/enrich-reports/")
    (RSeq (RGroup 1 (RPlus (NoneOf "/")))
      (RSeq (RLit "/")
        (RSeq (RGroup 2 (RPlus (NoneOf "/")))
          (RSeq (RLit "/report.json") REnd)))).

Record report_ids : Type := {
  bizId : option string;       (* [None] is null *)
  reportId : option string
}.

(** [m?.[n] ?? null] for the result [m] of [match]. *)
Definition group_or_null (m : option captures) (n : nat) : option string :=
  match m with
  | Some cs => capture n cs
  | None => None
  end.

Definition parseReportPath (P : platform) (jsonUrl : string) : result report_ids :=
  try_catch
    (u <- new_URL P jsonUrl ;;
     let m := regex_exec report_path_re (pathname u) in
     Ok {| bizId := group_or_null m 1; reportId := group_or_null m 2 |})%js
    (Ok {| bizId := None; reportId := None |}).

(** ** The handlers *)

Module ApiHello.

(** [api/hello.ts]. *)
Definition handler (_req : request) : M response :=
  (setHeader "Content-Type" "application/json" ;;
   respond 200
     (Text (match JSON_stringify (VObj [("ok", VBool true); ("runtime", VStr "node")]) with
            | Some t => t
            | None => "undefined"
            end)))%io.

End ApiHello.

Module ApiExport.

(** [process.env.SUPABASE_BUCKET || "enrich-reports"]. *)
Definition BUCKET (P : platform) : string :=
  match SUPABASE_BUCKET P with
  | Some b => if String.eqb b "" then "enrich-reports" else b
  | None => "enrich-reports"
  end.

Definition withCORS : M unit :=
  (setHeader "Access-Control-Allow-Origin" "*" ;;
   setHeader "Access-Control-Allow-Methods" "POST, OPTIONS" ;;
   setHeader "Access-Control-Allow-Headers" "Content-Type")%io.

(** [!x] for a string that may be undefined or null. *)
Definition missing (x : option string) : bool :=
  match x with
  | Some s => String.eqb s ""
  | None => true
  end.

Definition text_of (x : option string) : string :=
  match x with
  | Some s => s
  | None => ""
  end.

Definition pdf_options : value :=
  VObj [("format", VStr "Letter");
        ("printBackground", VBool true);
        ("margin", VObj [("top", VStr "18mm"); ("right", VStr "12mm");
                         ("bottom", VStr "18mm"); ("left", VStr "12mm")])].

Definition upload_options : value :=
  VObj [("cacheControl", VStr "3600");
        ("contentType", VStr "application/pdf");
        ("upsert", VBool true)].

(** The options of [puppeteer.launch]; [exePath || undefined]. *)
Definition launch_options (P : platform) (exePath : value) : value :=
  VObj [("args", chromium_args P);
        ("executablePath", jor exePath VUndefined);
        ("headless", VBool true)].

Definition wait_options : value := VObj [("waitUntil", VStr "networkidle0")].

(** The body of the [try] block once [json_url] and [format] are read. *)
Definition pipeline (P : platform) (json_url : string) : M response :=
  ((* 1) Fetch report JSON *)
   r <- call (EFetch json_url) (fetch P json_url) ;;
   if negb (ok r) then respond 400 (error_body "invalid_json_url") else
   content <- lift (json r) ;;
   (* 2) Render HTML *)
   html <- lift (renderHTML content) ;;
   (* 3) Launch headless Chrome and create PDF *)
   exePath <- lift (chromium_executablePath P) ;;
   call (ELaunch (launch_options P exePath))
        (puppeteer_launch P (launch_options P exePath)) ;;
   call ENewPage (browser_newPage P) ;;
   call (ESetContent html wait_options) (page_setContent P html wait_options) ;;
   pdfBuffer <- call (EPdf pdf_options) (page_pdf P pdf_options) ;;
   call EClose (browser_close P) ;;
   (* 4) Upload PDF next to report.json *)
   ids <- lift (parseReportPath P json_url) ;;
   if missing (bizId ids) || missing (reportId ids)
   then respond 400 (error_body "cannot_parse_report_path") else
   let pdfPath := text_of (bizId ids) ++ "/" ++ text_of (reportId ids) ++ "/report.pdf" in
   upErr <- call (EUpload (BUCKET P) pdfPath pdfBuffer upload_options)
                 (storage_upload P (BUCKET P) pdfPath pdfBuffer upload_options) ;;
   if truthy upErr then throw upErr else
   let publicUrl := storage_getPublicUrl P (BUCKET P) pdfPath in
   respond 200 (Json (VObj [("ok", VBool true); ("url", VStr publicUrl)])))%io.

(** The [catch] block: [String(e?.message ?? e)]. *)
Definition on_error (e : value) : M response :=
  (emit (ELog e) ;;
   m <- lift (opt_member e "message") ;;
   text <- lift (ToString (coalesce m e)) ;;
   respond 500 (Json (VObj [("error", VStr text)])))%io.

Definition handler (P : platform) (req : request) : M response :=
  (withCORS ;;
   if String.eqb (method req) "OPTIONS" then respond 204 (Text "") else
   try_catch_io
     (if negb (String.eqb (method req) "POST")
      then respond 405 (error_body "method_not_allowed") else
      let b := match body req with
               | Some b => b
               | None => {| json_url := None; format := None |}
               end in
      let fmt := match format b with
                 | Some f => f
                 | None => "pdf"
                 end in
      if missing (json_url b) then respond 400 (error_body "missing_json_url") else
      if negb (String.eqb fmt "pdf") then respond 400 (error_body "unsupported_format") else
      pipeline P (text_of (json_url b)))
     on_error)%io.

End ApiExport.

(** ** Vocabulary of the statements *)

(** What the matcher is checked against: [matches r t rest cs cs'] says that
    [r] can consume [t] in front of [rest], taking the captures from [cs] to
    [cs']. *)
Fixpoint all_accept (c : cls) (s : string) : bool :=
  match s with
  | EmptyString => true
  | String a s' => accepts c a && all_accept c s'
  end.

Inductive matches : regex -> string -> string -> captures -> captures -> Prop :=
| MLit p rest cs : matches (RLit p) p rest cs cs
| MSet c a rest cs :
    accepts c a = true -> matches (RSet c) (String a "") rest cs cs
| MPlus c a t rest cs :
    accepts c a = true -> all_accept c t = true ->
    matches (RPlus c) (String a t) rest cs cs
| MGroup n r t rest cs cs' :
    matches r t rest cs cs' -> matches (RGroup n r) t rest cs ((n, t) :: cs')
| MSeq r1 r2 t1 t2 rest cs cs1 cs2 :
    matches r1 t1 (t2 ++ rest) cs cs1 -> matches r2 t2 rest cs1 cs2 ->
    matches (RSeq r1 r2) (t1 ++ t2) rest cs cs2
| MEnd cs : matches REnd "" "" cs cs.

Definition slash_free (s : string) : Prop := occurs "/" s = false.

(** A path ends with the segments bucket, business id, report id and
    report.json, the two ids being non-empty and free of slashes. *)
Definition report_path (bucket p biz rid : string) : Prop :=
  exists pre,
    p = pre ++ "/" ++ bucket ++ "/" ++ biz ++ "/" ++ rid ++ "/report.json"
    /\ biz <> "" /\ rid <> "" /\ slash_free biz /\ slash_free rid.

(** [v.k] where it cannot throw. *)
Definition prop (v : value) (k : string) : value :=
  match v with
  | VObj props =>
      match lookup k props with
      | Some x => x
      | None => VUndefined
      end
  | _ => VUndefined
  end.

(** The values [renderHTML] reads from a document: [h.k] and [s.section?.k]. *)
Definition header_field (content : value) (k : string) : value :=
  prop (jor (prop content "header") (VObj [])) k.

Definition section_value (content : value) (section k : string) : value :=
  let o := prop (jor (prop content "sections") (VObj [])) section in
  if nullish o then VUndefined else prop o k.

(** Two values the renderer cannot tell apart: equal, or both falsy. *)
Definition same_or_falsy (a b : value) : Prop :=
  a = b \/ (truthy a = false /\ truthy b = false).

(** Removing and setting own properties. *)
Fixpoint remove_prop (k : string) (props : list (string * value))
    : list (string * value) :=
  match props with
  | [] => []
  | (k', v) :: rest =>
      if String.eqb k' k then remove_prop k rest else (k', v) :: remove_prop k rest
  end.

Definition set_prop (k : string) (v : value) (props : list (string * value))
    : list (string * value) :=
  (k, v) :: remove_prop k props.

Definition null_ids : report_ids := {| bizId := None; reportId := None |}.

(** The steps of the pipeline that precede the path resolver all succeed
    on [url], and the PDF they produce is [pdf]. *)
Definition rasterizes (P : platform) (url : string) (pdf : buffer) : Prop :=
  exists r doc html exe,
    fetch P url = Ok r /\ ok r = true /\ json r = Ok doc
    /\ renderHTML doc = Ok html
    /\ chromium_executablePath P = Ok exe
    /\ puppeteer_launch P (ApiExport.launch_options P exe) = Ok tt
    /\ browser_newPage P = Ok tt
    /\ page_setContent P html ApiExport.wait_options = Ok tt
    /\ page_pdf P ApiExport.pdf_options = Ok pdf
    /\ browser_close P = Ok tt.

(** A request body names the format PDF, or none. *)
Definition pdf_format (fmt : option string) : Prop :=
  fmt = None \/ fmt = Some "pdf".

(** The session discipline on a trace: a response is never sent while a
    browser launched earlier is still open. *)
Fixpoint closed_before_send (open : bool) (t : list event) : bool :=
  match t with
  | [] => true
  | ELaunch _ :: t' => closed_before_send true t'
  | EClose :: t' => closed_before_send false t'
  | ESend _ :: t' => negb open && closed_before_send open t'
  | _ :: t' => closed_before_send open t'
  end.

(** ** A platform for the examples *)

Fixpoint until_any (stops s : string) : string * string :=
  match s with
  | EmptyString => ("", "")
  | String a s' =>
      if occurs a stops then ("", s)
      else let (t, rest) := until_any stops s' in (String a t, rest)
  end.

(** A URL constructor that accepts absolute https URLs with a host, and
    whose path needs no normalisation (no dot segments, nothing to
    percent-encode); on these it gives the path the WHATWG parser gives. *)
Definition demo_new_URL (s : string) : result URL :=
  match match_lit "https://" s with
  | Some rest =>
      let (host, after) := until_any "/?#" rest in
      if String.eqb host "" then Throw (js_error "TypeError" "Invalid URL")
      else
        let (path, _) := until_any "?#" after in
        Ok {| pathname := if String.eqb path "" then "/" else path |}
  | None => Throw (js_error "TypeError" "Invalid URL")
  end.

Definition demo_doc : value :=
  VObj [("header", VObj [("business_name", VStr "Acme")]); ("sections", VObj [])].

Definition demo_pdf : buffer := [Byte.x25; Byte.x50; Byte.x44; Byte.x46].

(** Every service answers; storage hands out URLs under one host. *)
Definition demo_platform : platform := {|
  new_URL := demo_new_URL;
  SUPABASE_BUCKET := None;
  fetch := fun _ => Ok {| ok := true; json := Ok demo_doc |};
  chromium_args := VArr [VStr "--no-sandbox"];
  chromium_executablePath := Ok (VStr "/tmp/chromium");
  puppeteer_launch := fun _ => Ok tt;
  browser_newPage := Ok tt;
  page_setContent := fun _ _ => Ok tt;
  page_pdf := fun _ => Ok demo_pdf;
  browser_close := Ok tt;
  storage_upload := fun _ _ _ _ => Ok VNull;
  storage_getPublicUrl := fun bucket path =>
    "https://demo.supabase.co/storage/v1/object/public/" ++ bucket ++ "/" ++ path
|}.

(** The same platform with a page that fails to load its content. *)
Definition stalled_platform : platform := {|
  new_URL := new_URL demo_platform;
  SUPABASE_BUCKET := SUPABASE_BUCKET demo_platform;
  fetch := fetch demo_platform;
  chromium_args := chromium_args demo_platform;
  chromium_executablePath := chromium_executablePath demo_platform;
  puppeteer_launch := puppeteer_launch demo_platform;
  browser_newPage := browser_newPage demo_platform;
  page_setContent := fun _ _ =>
    Throw (js_error "TimeoutError" "Navigation timeout of 30000 ms exceeded");
  page_pdf := page_pdf demo_platform;
  browser_close := browser_close demo_platform;
  storage_upload := storage_upload demo_platform;
  storage_getPublicUrl := storage_getPublicUrl demo_platform
|}.

Definition demo_url : string :=
  "https://demo.supabase.co/storage/v1/object/public/enrich-reports/biz1/rep1/report.json".

Definition post (p : payload) : request :=
  {| method := "POST"; req_headers := []; body := Some p |}.

Definition demo_request : request :=
  post {| json_url := Some demo_url; format := None |}.


(** The world after [withCORS]. *)
Definition cors (w : world) : world := snd (ApiExport.withCORS w).

(** A computation only appends to the trace. *)
Definition extends {A : Type} (m : M A) : Prop :=
  forall w, exists l, trace (snd (m w)) = (trace w ++ l)%list.

(** A report stored in a bucket of another name. *)
Definition other_bucket_url : string :=
  "https://demo.supabase.co/storage/v1/object/public/other-bucket/biz1/rep1/report.json".

Definition demo_path : string :=
  "/storage/v1/object/public/enrich-reports/biz1/rep1/report.json".

Definition other_bucket_path : string :=
  "/storage/v1/object/public/other-bucket/biz1/rep1/report.json".

Definition export_request (hs : list (string * string)) (url : string)
    (fmt : option string) : request :=
  {| method := "POST"; req_headers := hs;
     body := Some {| json_url := Some url; format := fmt |} |}.

(** The body of the health check: an object with the properties ok (true)
    and runtime (node), as JSON text. *)
Definition hello_body : string :=
  "{" ++ dq ++ "ok" ++ dq ++ ":true," ++ dq ++ "runtime" ++ dq ++ ":"
      ++ dq ++ "node" ++ dq ++ "}".

Definition is_launch (e : event) : bool :=
  match e with
  | ELaunch _ => true
  | _ => false
  end.

Definition is_close (e : event) : bool :=
  match e with
  | EClose => true
  | _ => false
  end.


(** A value whose conversion to text cannot throw: anything but an array or
    an object. *)
Definition plain (v : value) : bool :=
  match v with
  | VArr _ | VObj _ => false
  | _ => true
  end.

(** The substitutions of the empty document. *)
Definition default_holes : holes := {|
  title := "Business Overview"; name := "Business"; city := ""; comma := "";
  country := ""; website := ""; email := ""; pill := "Initiated";
  summary := ""; goals := ""; certifications := ""; operations := "";
  unwto := ""; ctc := ""; local_impact := ""; people := ""; suppliers := "";
  employee := ""; economic := ""; rec_goals := ""; rec_operations := ""
|}.

(** What the substitutions [x] of a document [d] are where a field of [d]
    is [gone], for two readings of gone: absent, and falsy. *)
Definition defaults_where (gone : value -> Prop) (d : value) (x : holes) : Prop :=
  (gone (header_field d "business_name") ->
     title x = "Business Overview" /\ name x = "Business")
  /\ (gone (header_field d "location_city") -> city x = "" /\ comma x = "")
  /\ (gone (header_field d "location_country") ->
        country x = "" /\ comma x = "")
  /\ (gone (header_field d "website_url") -> website x = "")
  /\ (gone (header_field d "contact_email") -> email x = "")
  /\ (gone (section_value d "overview" "growth_transparency_badge") ->
        pill x = "Initiated")
  /\ (gone (section_value d "overview" "ai_summary") -> summary x = "")
  /\ (gone (section_value d "overview" "goals") -> goals x = "")
  /\ (gone (section_value d "overview" "certifications") ->
        certifications x = "")
  /\ (gone (section_value d "operations" "information") -> operations x = "")
  /\ (gone (section_value d "standards" "global_unwto") -> unwto x = "")
  /\ (gone (section_value d "standards" "national_ctc") -> ctc x = "")
  /\ (gone (section_value d "local_impact" "information") ->
        local_impact x = "")
  /\ (gone (section_value d "people_partnerships" "information") ->
        people x = "")
  /\ (gone (section_value d "insights" "local_suppliers") -> suppliers x = "")
  /\ (gone (section_value d "insights" "employee") -> employee x = "")
  /\ (gone (section_value d "insights" "economic") -> economic x = "")
  /\ (gone (section_value d "recommendations" "goals") -> rec_goals x = "")
  /\ (gone (section_value d "recommendations" "operations") ->
        rec_operations x = "").

Definition absent (v : value) : Prop := v = VUndefined.

Definition falsy (v : value) : Prop := truthy v = false.

(** Every field the renderer reads is absent or a primitive. *)
Definition plain_fields (d : value) : Prop :=
  (forall k, plain (header_field d k) = true)
  /\ (forall sec k, plain (section_value d sec k) = true).

(** A report whose website address holds double quotes. *)
Definition quoted_site : string :=
  "https://a.example/?q=" ++ dq ++ "x" ++ dq.




(** ** Vocabulary of the further properties *)

(** The text [escapeHtml] gives for a string. *)
Definition esc (s : string) : string := replace_all html_special entity s.

(** A text that holds no angle bracket and no quote. *)
Definition no_markup (t : string) : bool :=
  negb (occurs "<" t) && negb (occurs ">" t)
  && negb (occurs "034" t) && negb (occurs "'" t).

(** Every ampersand of a text opens one of the five entities. *)
Definition opens_entity (t : string) : bool :=
  existsb (fun e => match match_lit e t with Some _ => true | None => false end)
    ["&amp;"; "&lt;"; "&gt;"; "&quot;"; "&#39;"].

Fixpoint entities_only (t : string) : bool :=
  match t with
  | EmptyString => true
  | String a t' =>
      (if Ascii.eqb a "&" then opens_entity t else true) && entities_only t'
  end.

(** A string that holds none of the five characters [escapeHtml] replaces. *)
Definition unmarked (s : string) : bool :=
  all_accept (NoneOf ("&<>" ++ dq ++ "'")) s.

(** The link of the website substitution, around the escaped address. *)
Definition website_link (a : string) : string :=
  " • <a href=" ++ dq ++ a ++ dq ++ ">" ++ a ++ "</a>".

(** No substitution can carry markup of its own: all but two hold no angle
    bracket and no quote; the comma is fixed text; the website is empty or
    the fixed link around one escaped text. *)
Definition inert_holes (x : holes) : Prop :=
  no_markup (title x) = true
  /\ no_markup (name x) = true
  /\ no_markup (city x) = true
  /\ no_markup (country x) = true
  /\ no_markup (email x) = true
  /\ no_markup (pill x) = true
  /\ no_markup (summary x) = true
  /\ no_markup (goals x) = true
  /\ no_markup (certifications x) = true
  /\ no_markup (operations x) = true
  /\ no_markup (unwto x) = true
  /\ no_markup (ctc x) = true
  /\ no_markup (local_impact x) = true
  /\ no_markup (people x) = true
  /\ no_markup (suppliers x) = true
  /\ no_markup (employee x) = true
  /\ no_markup (economic x) = true
  /\ no_markup (rec_goals x) = true
  /\ no_markup (rec_operations x) = true
  /\ (comma x = "" \/ comma x = ", ")
  /\ (website x = ""
      \/ exists a, no_markup a = true /\ entities_only a = true
                   /\ website x = website_link a).


(** The headers [withCORS] sets on a fresh response. *)
Definition cors_headers : list (string * string) :=
  [("Access-Control-Allow-Origin", "*");
   ("Access-Control-Allow-Methods", "POST, OPTIONS");
   ("Access-Control-Allow-Headers", "Content-Type")].

(** The place of an event in a run of the export handler. *)
Definition step_of (e : event) : nat :=
  match e with
  | EFetch _ => 1
  | ELaunch _ => 2
  | ENewPage => 3
  | ESetContent _ _ => 4
  | EPdf _ => 5
  | EClose => 6
  | EUpload _ _ _ _ => 7
  | ELog _ => 8
  | ESend _ => 9
  end.

(** [in_order next t]: the events of [t] are steps of the pipeline taken in
    order and without a gap from [next] on, then at most one log, then at
    most one response, and nothing after it. *)
Fixpoint in_order (next : nat) (t : list event) : bool :=
  match t with
  | [] => true
  | e :: t' =>
      (if Nat.leb (step_of e) 7
       then Nat.eqb (step_of e) next
       else Nat.leb next (step_of e))
      && in_order (S (step_of e)) t'
  end.

Fixpoint last_event (t : list event) : option event :=
  match t with
  | [] => None
  | [e] => Some e
  | _ :: t' => last_event t'
  end.

Definition is_send (e : event) : bool :=
  match e with
  | ESend _ => true
  | _ => false
  end.

Definition is_log (e : event) : bool :=
  match e with
  | ELog _ => true
  | _ => false
  end.

Definition is_upload (e : event) : bool :=
  match e with
  | EUpload _ _ _ _ => true
  | _ => false
  end.

(** An [Error] object. *)
Definition is_error (e : value) : Prop := exists name m, e = js_error name m.

(** A platform whose services throw nothing but [Error] objects, and whose
    storage client reports nothing but [Error] objects. *)
Definition throws_errors (P : platform) : Prop :=
  (forall url e, fetch P url = Throw e -> is_error e)
  /\ (forall url r e, fetch P url = Ok r -> json r = Throw e -> is_error e)
  /\ (forall e, chromium_executablePath P = Throw e -> is_error e)
  /\ (forall o e, puppeteer_launch P o = Throw e -> is_error e)
  /\ (forall e, browser_newPage P = Throw e -> is_error e)
  /\ (forall html o e, page_setContent P html o = Throw e -> is_error e)
  /\ (forall o e, page_pdf P o = Throw e -> is_error e)
  /\ (forall e, browser_close P = Throw e -> is_error e)
  /\ (forall b p d o e, storage_upload P b p d o = Throw e -> is_error e)
  /\ (forall b p d o e,
        storage_upload P b p d o = Ok e -> truthy e = true -> is_error e).

(** The browser steps of a platform never throw. *)
Definition browser_never_throws (P : platform) : Prop :=
  (forall o, puppeteer_launch P o = Ok tt)
  /\ browser_newPage P = Ok tt
  /\ (forall html o, page_setContent P html o = Ok tt)
  /\ (exists pdf, forall o, page_pdf P o = Ok pdf)
  /\ browser_close P = Ok tt.

(** The demo platform with a storage that has no such report: the fetch
    answers 404 with a body that is not JSON. *)
Definition not_found_platform : platform := {|
  new_URL := new_URL demo_platform;
  SUPABASE_BUCKET := SUPABASE_BUCKET demo_platform;
  fetch := fun _ =>
    Ok {| ok := false; json := Throw (js_error "SyntaxError" "Unexpected token") |};
  chromium_args := chromium_args demo_platform;
  chromium_executablePath := chromium_executablePath demo_platform;
  puppeteer_launch := puppeteer_launch demo_platform;
  browser_newPage := browser_newPage demo_platform;
  page_setContent := page_setContent demo_platform;
  page_pdf := page_pdf demo_platform;
  browser_close := browser_close demo_platform;
  storage_upload := storage_upload demo_platform;
  storage_getPublicUrl := storage_getPublicUrl demo_platform
|}.

(** * Properties *)

#[local] Arguments Ascii.eqb : simpl never.

(** ** Strings *)

Lemma append_nil_r (s : string) : s ++ "" = s.
Proof. induction s as [|a s IH]; simpl; [reflexivity | now rewrite IH]. Qed.

Lemma append_assoc (a b c : string) : (a ++ b) ++ c = a ++ (b ++ c).
Proof. induction a as [|x a IH]; simpl; [reflexivity | now rewrite IH]. Qed.

Lemma length_append (a b : string) :
  String.length (a ++ b) = String.length a + String.length b.
Proof. induction a as [|x a IH]; simpl; [reflexivity | now rewrite IH]. Qed.

Lemma append_inv_tail (a b t : string) : a ++ t = b ++ t -> a = b.
Proof.
  revert b. induction a as [|x a IH]; intros [|y b] H; simpl in H.
  - reflexivity.
  - apply (f_equal String.length) in H. simpl in H.
    rewrite length_append in H. lia.
  - apply (f_equal String.length) in H. simpl in H.
    rewrite length_append in H. lia.
  - injection H as -> H. f_equal. now apply IH.
Qed.

Lemma occurs_append (c : ascii) (a b : string) :
  occurs c (a ++ b) = occurs c a || occurs c b.
Proof.
  induction a as [|x a IH]; simpl; [reflexivity|].
  now rewrite IH, orb_assoc.
Qed.

Lemma match_lit_append (p rest : string) : match_lit p (p ++ rest) = Some rest.
Proof.
  induction p as [|a p IH]; simpl; [reflexivity|].
  now rewrite Ascii.eqb_refl.
Qed.

Lemma match_lit_inv (p s rest : string) :
  match_lit p s = Some rest -> s = p ++ rest.
Proof.
  revert s. induction p as [|a p IH]; intros s H; simpl in H.
  - now injection H as ->.
  - destruct s as [|b s]; [discriminate|].
    destruct (Ascii.eqb a b) eqn:E; [|discriminate].
    apply Ascii.eqb_eq in E. subst b. simpl. f_equal. now apply IH.
Qed.

(** A segment that holds no slash is fixed by the text around it. *)
Lemma last_segment (a a' r r' : string) :
  slash_free r -> slash_free r' ->
  a ++ "/" ++ r = a' ++ "/" ++ r' -> a = a' /\ r = r'.
Proof.
  unfold slash_free. revert a'.
  induction a as [|x a IH]; intros [|y a'] Hr Hr' H; simpl in H.
  - injection H as ->. now split.
  - injection H as <- H. subst r.
    rewrite occurs_append in Hr. simpl in Hr.
    rewrite orb_true_r in Hr. discriminate.
  - injection H as -> H. subst r'.
    rewrite occurs_append in Hr'. simpl in Hr'.
    rewrite orb_true_r in Hr'. discriminate.
  - injection H as -> H. destruct (IH a' Hr Hr' H) as [-> ->]. now split.
Qed.

(** ** The matcher against its specification *)

Lemma all_accept_none_of (cs t : string) (a : ascii) :
  all_accept (NoneOf cs) t = true -> occurs a cs = true -> occurs a t = false.
Proof.
  induction t as [|b t IH]; simpl; intros H Ha; [reflexivity|].
  apply andb_true_iff in H as [Hb Ht].
  rewrite (IH Ht Ha), orb_false_r.
  destruct (Ascii.eqb b a) eqn:E; [|reflexivity].
  apply Ascii.eqb_eq in E. subst b. rewrite Ha in Hb. discriminate.
Qed.

Lemma slash_free_all_accept (t : string) :
  slash_free t -> all_accept (NoneOf "/") t = true.
Proof.
  unfold slash_free. induction t as [|b t IH]; simpl; intros H; [reflexivity|].
  apply orb_false_iff in H as [Hb Ht].
  rewrite (IH Ht), andb_true_r.
  rewrite orb_false_r, Ascii.eqb_sym, Hb. reflexivity.
Qed.

Section Matcher.
Context {R : Type}.

Lemma match_star_sound (c : cls) (s : string) :
  forall (k : string -> string -> option R) (x : R),
    match_star c s k = Some x ->
    exists t rest, s = t ++ rest /\ all_accept c t = true /\ k t rest = Some x.
Proof.
  induction s as [|a s IH]; intros k x H; simpl in H.
  - exists "", "". auto.
  - destruct (accepts c a) eqn:Ha.
    + destruct (match_star c s (fun t rest => k (String a t) rest)) as [y|] eqn:E.
      * injection H as ->.
        destruct (IH _ _ E) as (t & rest & -> & Ht & Hk).
        exists (String a t), rest. simpl. rewrite Ha, Ht. auto.
      * exists "", (String a s). auto.
    + exists "", (String a s). auto.
Qed.

Lemma match_star_accepts_rest (c : cls) (s : string) :
  forall (k : string -> string -> option R) (x : R),
    k "" s = Some x -> exists y, match_star c s k = Some y.
Proof.
  destruct s as [|a s]; intros k x H; simpl; [eauto|].
  destruct (accepts c a); [|eauto].
  destruct (match_star c s _); eauto.
Qed.

Lemma match_star_complete (c : cls) (t : string) :
  forall (rest : string) (k : string -> string -> option R) (x : R),
    all_accept c t = true -> k t rest = Some x ->
    exists y, match_star c (t ++ rest) k = Some y.
Proof.
  induction t as [|a t IH]; intros rest k x Ht Hk; simpl.
  - eapply match_star_accepts_rest; eauto.
  - simpl in Ht. apply andb_true_iff in Ht as [Ha Ht]. rewrite Ha.
    destruct (IH rest (fun t' r => k (String a t') r) x Ht Hk) as [y ->].
    eauto.
Qed.

Lemma match_re_sound (r : regex) :
  forall (s : string) (cs : captures)
         (k : string -> string -> captures -> option R) (x : R),
    match_re r s cs k = Some x ->
    exists t rest cs',
      s = t ++ rest /\ matches r t rest cs cs' /\ k t rest cs' = Some x.
Proof.
  induction r as [p|c|c|n r IH|r1 IH1 r2 IH2|]; intros s cs k x H; simpl in H.
  - destruct (match_lit p s) as [rest|] eqn:E; [|discriminate].
    apply match_lit_inv in E. exists p, rest, cs. repeat split; auto. constructor.
  - destruct s as [|a s]; [discriminate|].
    destruct (accepts c a) eqn:Ha; [|discriminate].
    exists (String a ""), s, cs. repeat split; auto. now constructor.
  - destruct s as [|a s]; [discriminate|].
    destruct (accepts c a) eqn:Ha; [|discriminate].
    apply match_star_sound in H as (t & rest & -> & Ht & Hk).
    exists (String a t), rest, cs. repeat split; auto. now constructor.
  - apply IH in H as (t & rest & cs' & -> & Hm & Hk).
    exists t, rest, ((n, t) :: cs'). repeat split; auto. now constructor.
  - apply IH1 in H as (t1 & rest1 & cs1 & -> & Hm1 & H).
    apply IH2 in H as (t2 & rest2 & cs2 & -> & Hm2 & Hk).
    exists (t1 ++ t2), rest2, cs2. repeat split; auto.
    + now rewrite append_assoc.
    + econstructor; eauto.
  - destruct s; [|discriminate].
    exists "", "", cs. repeat split; auto. constructor.
Qed.

Lemma match_re_complete (r : regex) :
  forall (t rest : string) (cs cs' : captures),
    matches r t rest cs cs' ->
    forall (k : string -> string -> captures -> option R) (x : R),
      k t rest cs' = Some x ->
      exists y, match_re r (t ++ rest) cs k = Some y.
Proof.
  intros t rest cs cs' Hm.
  induction Hm as [p rest cs|c a rest cs Ha|c a t rest cs Ha Ht
                  |n r t rest cs cs' Hm IH
                  |r1 r2 t1 t2 rest cs cs1 cs2 Hm1 IH1 Hm2 IH2|cs];
    intros k x Hk; simpl.
  - rewrite match_lit_append. eauto.
  - rewrite Ha. eauto.
  - rewrite Ha. eapply match_star_complete; eauto.
  - eapply IH. exact Hk.
  - rewrite append_assoc.
    destruct (IH2 (fun u2 rest2 cs2' => k (t1 ++ u2) rest2 cs2') x Hk) as [y Hy].
    eapply (IH1 (fun u1 rest1 cs1' =>
                   match_re r2 rest1 cs1'
                     (fun u2 rest2 cs2' => k (u1 ++ u2) rest2 cs2'))).
    exact Hy.
  - eauto.
Qed.
End Matcher.

Lemma regex_exec_unfold (r : regex) (s : string) :
  regex_exec r s =
  match match_re r s [] (fun t _ cs => Some ((0, t) :: cs)) with
  | Some cs => Some cs
  | None =>
      match s with
      | String _ s' => regex_exec r s'
      | EmptyString => None
      end
  end.
Proof. destruct s; reflexivity. Qed.

Lemma regex_exec_sound (r : regex) (s : string) (cs : captures) :
  regex_exec r s = Some cs ->
  exists pre t rest cs',
    s = pre ++ t ++ rest /\ matches r t rest [] cs' /\ cs = (0, t) :: cs'.
Proof.
  induction s as [|a s IH]; rewrite regex_exec_unfold;
    destruct (match_re r _ [] _) as [y|] eqn:E; intros H.
  - injection H as ->.
    apply match_re_sound in E as (t & rest & cs' & Hs & Hm & Hk).
    injection Hk as <-. exists "", t, rest, cs'. auto.
  - discriminate.
  - injection H as ->.
    apply match_re_sound in E as (t & rest & cs' & Hs & Hm & Hk).
    injection Hk as <-. exists "", t, rest, cs'. auto.
  - destruct (IH H) as (pre & t & rest & cs' & -> & Hm & ->).
    exists (String a pre), t, rest, cs'. auto.
Qed.

Lemma regex_exec_complete (r : regex) (pre t rest : string) (cs' : captures) :
  matches r t rest [] cs' ->
  exists cs, regex_exec r (pre ++ t ++ rest) = Some cs.
Proof.
  intros Hm. induction pre as [|a pre IH]; rewrite regex_exec_unfold.
  - simpl.
    destruct (match_re_complete r t rest [] cs' Hm
                (fun t _ cs => Some ((0, t) :: cs)) _ eq_refl) as [y ->].
    eauto.
  - destruct (match_re r _ [] _); [eauto|]. simpl. exact IH.
Qed.

(** ** The path pattern *)

Lemma plus_slash_free (a : ascii) (t : string) :
  accepts (NoneOf "/") a = true -> all_accept (NoneOf "/") t = true ->
  slash_free (String a t).
Proof.
  intros Ha Ht. unfold slash_free. simpl.
  rewrite (all_accept_none_of "/" t "/" Ht eq_refl), orb_false_r.
  unfold accepts in Ha. simpl in Ha. rewrite orb_false_r in Ha.
  now apply negb_true_iff in Ha.
Qed.

Lemma report_path_re_inv (t rest : string) (cs : captures) :
  matches report_path_re t rest [] cs ->
  rest = "" /\
  exists biz rid,
    t = "/enrich-reports/" ++ biz ++ "/" ++ rid ++ "/report.json"
    /\ biz <> "" /\ rid <> "" /\ slash_free biz /\ slash_free rid
    /\ cs = [(2, rid); (1, biz)].
Proof.
  unfold report_path_re. intros H.
  repeat match goal with
         | M : matches (RSeq _ _) _ _ _ _ |- _ => inversion M; subst; clear M
         | M : matches (RGroup _ _) _ _ _ _ |- _ => inversion M; subst; clear M
         | M : matches (RLit _) _ _ _ _ |- _ => inversion M; subst; clear M
         | M : matches (RPlus _) _ _ _ _ |- _ => inversion M; subst; clear M
         | M : matches REnd _ _ _ _ |- _ => inversion M; subst; clear M
         end.
  split; [reflexivity|].
  match goal with
  | |- exists biz rid, _ /\ _ /\ _ /\ _ /\ _ /\ [(2, ?r); (1, ?b)] = _ =>
      exists b, r
  end.
  repeat split; try discriminate; try (now apply plus_slash_free).
Qed.

Lemma report_path_re_intro (biz rid : string) :
  biz <> "" -> rid <> "" -> slash_free biz -> slash_free rid ->
  matches report_path_re
    ("/enrich-reports/" ++ biz ++ "/" ++ rid ++ "/report.json" ++ "") ""
    [] [(2, rid); (1, biz)].
Proof.
  intros Hb Hr Sb Sr. unfold report_path_re.
  assert (plus : forall s cs rest, s <> "" -> slash_free s ->
            matches (RPlus (NoneOf "/")) s rest cs cs).
  { intros [|a s] cs rest Hne Hs; [congruence|].
    unfold slash_free in Hs. simpl in Hs.
    apply orb_false_iff in Hs as [Ha Hs].
    constructor.
    - unfold accepts. simpl. now rewrite orb_false_r, Ascii.eqb_sym, Ha.
    - now apply slash_free_all_accept. }
  repeat (first [ eapply MSeq | eapply MGroup | apply MLit | apply MEnd
                 | now apply plus ]).
Qed.

Lemma report_path_unique (b b' p biz rid biz' rid' : string) :
  report_path b p biz rid -> report_path b' p biz' rid' ->
  biz = biz' /\ rid = rid'.
Proof.
  intros (pre & E & _ & _ & Sb & Sr) (pre' & E' & _ & _ & Sb' & Sr').
  rewrite E in E'. clear E.
  assert (A : forall x y u v : string,
             x ++ "/" ++ y ++ "/" ++ u ++ "/" ++ v ++ "/report.json"
             = (((x ++ "/" ++ y) ++ "/" ++ u) ++ "/" ++ v) ++ "/report.json").
  { intros. now rewrite !append_assoc. }
  rewrite !A in E'. apply append_inv_tail in E'.
  apply last_segment in E' as [E' ->]; auto.
  apply last_segment in E' as [_ ->]; auto.
Qed.

(** The pattern finds the two ids exactly on the paths that end with
    /enrich-reports/<biz>/<report>/report.json. *)
Lemma exec_report_path_sound (p : string) (cs : captures) :
  regex_exec report_path_re p = Some cs ->
  exists biz rid,
    report_path "enrich-reports" p biz rid
    /\ capture 1 cs = Some biz /\ capture 2 cs = Some rid.
Proof.
  intros H.
  apply regex_exec_sound in H as (pre & t & rest & cs' & -> & Hm & ->).
  apply report_path_re_inv in Hm
    as (-> & biz & rid & -> & Hb & Hr & Sb & Sr & ->).
  exists biz, rid. repeat split; auto.
  exists pre. repeat split; auto.
  now rewrite append_nil_r.
Qed.

Lemma exec_report_path_complete (p biz rid : string) :
  report_path "enrich-reports" p biz rid ->
  exists cs,
    regex_exec report_path_re p = Some cs
    /\ capture 1 cs = Some biz /\ capture 2 cs = Some rid.
Proof.
  intros Hp.
  assert (Hex : exists cs, regex_exec report_path_re p = Some cs).
  { destruct Hp as (pre & -> & Hb & Hr & Sb & Sr).
    destruct (regex_exec_complete report_path_re pre _ "" _
                (report_path_re_intro biz rid Hb Hr Sb Sr)) as [cs Hcs].
    exists cs. rewrite <- Hcs. f_equal.
    now rewrite !append_nil_r. }
  destruct Hex as [cs Hcs]. exists cs. split; [exact Hcs|].
  destruct (exec_report_path_sound p cs Hcs) as (biz' & rid' & Hp' & C1 & C2).
  destruct (report_path_unique _ _ _ _ _ _ _ Hp Hp') as [-> ->]. auto.
Qed.

Lemma exec_report_path_none (p : string) :
  (forall biz rid, ~ report_path "enrich-reports" p biz rid) ->
  regex_exec report_path_re p = None.
Proof.
  intros Hn. destruct (regex_exec report_path_re p) as [cs|] eqn:E; [|reflexivity].
  destruct (exec_report_path_sound p cs E) as (biz & rid & Hp & _).
  now destruct (Hn biz rid).
Qed.

(** ** The path resolver *)

Lemma parseReportPath_unfold (P : platform) (url : string) (u : URL) :
  new_URL P url = Ok u ->
  parseReportPath P url =
  Ok {| bizId := group_or_null (regex_exec report_path_re (pathname u)) 1;
        reportId := group_or_null (regex_exec report_path_re (pathname u)) 2 |}.
Proof. intros H. unfold parseReportPath. now rewrite H. Qed.

Lemma parseReportPath_match (P : platform) (url : string) (u : URL) (biz rid : string) :
  new_URL P url = Ok u ->
  report_path "enrich-reports" (pathname u) biz rid ->
  parseReportPath P url = Ok {| bizId := Some biz; reportId := Some rid |}.
Proof.
  intros Hu Hp. rewrite (parseReportPath_unfold P url u Hu).
  destruct (exec_report_path_complete _ _ _ Hp) as (cs & -> & C1 & C2).
  simpl. now rewrite C1, C2.
Qed.

Lemma parseReportPath_no_match (P : platform) (url : string) (u : URL) :
  new_URL P url = Ok u ->
  (forall biz rid, ~ report_path "enrich-reports" (pathname u) biz rid) ->
  parseReportPath P url = Ok null_ids.
Proof.
  intros Hu Hn. rewrite (parseReportPath_unfold P url u Hu).
  now rewrite (exec_report_path_none _ Hn).
Qed.

Lemma parseReportPath_malformed (P : platform) (url : string) (e : value) :
  new_URL P url = Throw e -> parseReportPath P url = Ok null_ids.
Proof. intros H. unfold parseReportPath. now rewrite H. Qed.

Lemma parseReportPath_ids (P : platform) (url biz rid : string) :
  parseReportPath P url = Ok {| bizId := Some biz; reportId := Some rid |} ->
  exists u, new_URL P url = Ok u
            /\ report_path "enrich-reports" (pathname u) biz rid.
Proof.
  intros H. destruct (new_URL P url) as [u|e] eqn:Hu.
  - rewrite (parseReportPath_unfold P url u Hu) in H.
    exists u. split; [reflexivity|].
    destruct (regex_exec report_path_re (pathname u)) as [cs|] eqn:E;
      [|discriminate].
    destruct (exec_report_path_sound _ _ E) as (b & r & Hp & C1 & C2).
    simpl in H. rewrite C1, C2 in H. now injection H as -> ->.
  - rewrite (parseReportPath_malformed P url e Hu) in H. discriminate.
Qed.

(** ** The export handler *)

Lemma cors_trace (w : world) : trace (cors w) = trace w.
Proof. reflexivity. Qed.

Lemma handler_post (P : platform) (hs : list (string * string))
    (url : string) (fmt : option string) (w : world) :
  url <> "" -> pdf_format fmt ->
  ApiExport.handler P
    {| method := "POST"; req_headers := hs;
       body := Some {| json_url := Some url; format := fmt |} |} w
  = try_catch_io (ApiExport.pipeline P url) ApiExport.on_error (cors w).
Proof.
  intros Hurl Hfmt. apply String.eqb_neq in Hurl.
  unfold ApiExport.handler, bind, cors. simpl.
  rewrite Hurl. destruct Hfmt as [-> | ->]; reflexivity.
Qed.

Ltac run_steps :=
  simpl in *;
  unfold try_catch_io, ApiExport.pipeline, bind, call, emit, lift, respond,
    throw, ret; simpl;
  repeat match goal with
         | H : _ = _ |- _ => rewrite H; simpl
         end.

Lemma pipeline_no_ids (P : platform) (url : string) (pdf : buffer) (w : world) :
  rasterizes P url pdf ->
  parseReportPath P url = Ok null_ids ->
  exists r w',
    try_catch_io (ApiExport.pipeline P url) ApiExport.on_error w = (Ok r, w')
    /\ status r = 400%Z
    /\ sent r = error_body "cannot_parse_report_path".
Proof.
  intros (r & doc & html & exe & Hf & Hok & Hj & Hh & He & Hl & Hn & Hc & Hp & Hx) Hids.
  run_steps. eauto.
Qed.

Lemma pipeline_uploaded (P : platform) (url biz rid : string) (pdf : buffer)
    (err : value) (w : world) :
  rasterizes P url pdf ->
  parseReportPath P url = Ok {| bizId := Some biz; reportId := Some rid |} ->
  storage_upload P (ApiExport.BUCKET P) (biz ++ "/" ++ rid ++ "/report.pdf") pdf
    ApiExport.upload_options = Ok err ->
  truthy err = false ->
  exists r w',
    try_catch_io (ApiExport.pipeline P url) ApiExport.on_error w = (Ok r, w')
    /\ status r = 200%Z
    /\ sent r =
       Json (VObj [("ok", VBool true);
                   ("url", VStr (storage_getPublicUrl P (ApiExport.BUCKET P)
                                   (biz ++ "/" ++ rid ++ "/report.pdf")))])
    /\ exists html exe,
         trace w' =
         (trace w ++
          [EFetch url;
           ELaunch (ApiExport.launch_options P exe);
           ENewPage;
           ESetContent html ApiExport.wait_options;
           EPdf ApiExport.pdf_options;
           EClose;
           EUpload (ApiExport.BUCKET P) (biz ++ "/" ++ rid ++ "/report.pdf") pdf
             ApiExport.upload_options;
           ESend r])%list.
Proof.
  intros (r & doc & html & exe & Hf & Hok & Hj & Hh & He & Hl & Hn & Hc & Hp & Hx)
         Hids Hup Herr.
  destruct (parseReportPath_ids _ _ _ _ Hids) as (u & _ & pre & _ & Hb & Hr & _).
  apply String.eqb_neq in Hb, Hr.
  run_steps.
  do 2 eexists. repeat split.
  exists html, exe. simpl. now rewrite <- !app_assoc.
Qed.







Lemma extends_try_catch {A : Type} (m : M A) (h : value -> M A) :
  extends m -> (forall e, extends (h e)) -> extends (try_catch_io m h).
Proof.
  intros Hm Hh w. unfold try_catch_io. destruct (Hm w) as [l Hl].
  destruct (m w) as [[a|e] w1]; simpl in *.
  - now exists l.
  - destruct (Hh e w1) as [l' Hl']. exists (l ++ l')%list.
    now rewrite Hl', Hl, app_assoc.
Qed.





Lemma no_report_path (p : string) :
  regex_exec report_path_re p = None ->
  forall biz rid, ~ report_path "enrich-reports" p biz rid.
Proof.
  intros H biz rid Hp.
  destruct (exec_report_path_complete _ _ _ Hp) as (cs & E & _).
  rewrite H in E. discriminate.
Qed.

(** C1, as stated, fails: a path that ends with the segments of a bucket of
    another name, a business id, a report id and report.json gives
    (null, null), not the two ids. *)
Lemma parseReportPath_other_bucket :
  exists u,
    new_URL demo_platform other_bucket_url = Ok u
    /\ report_path "other-bucket" (pathname u) "biz1" "rep1"
    /\ parseReportPath demo_platform other_bucket_url = Ok null_ids
    /\ parseReportPath demo_platform other_bucket_url
       <> Ok {| bizId := Some "biz1"; reportId := Some "rep1" |}.
Proof.
  eexists. split; [reflexivity|]. split; [|split; [reflexivity|discriminate]].
  exists "/storage/v1/object/public". repeat split; discriminate.
Qed.

(** C1, amended: for every URL whose path ends with the segments
    enrich-reports, business id, report id and report.json (the ids being
    non-empty and free of slashes), parseReportPath extracts the two ids; for
    every URL whose path does not, it returns (null, null), and the handler
    answers 400 cannot_parse_report_path once the fetch, render and rasterize
    steps have succeeded. *)
Theorem parseReportPath_enrich_reports (P : platform) (url : string) (u : URL) :
  new_URL P url = Ok u ->
  (forall biz rid,
      report_path "enrich-reports" (pathname u) biz rid ->
      parseReportPath P url = Ok {| bizId := Some biz; reportId := Some rid |})
  /\ ((forall biz rid, ~ report_path "enrich-reports" (pathname u) biz rid) ->
      parseReportPath P url = Ok null_ids
      /\ forall hs fmt pdf w,
           url <> "" -> pdf_format fmt -> rasterizes P url pdf ->
           exists r w',
             ApiExport.handler P (export_request hs url fmt) w = (Ok r, w')
             /\ status r = 400%Z
             /\ sent r = error_body "cannot_parse_report_path").
Proof.
  intros Hu. split.
  - intros biz rid Hp. now apply parseReportPath_match with u.
  - intros Hn.
    assert (Hids : parseReportPath P url = Ok null_ids)
      by now apply parseReportPath_no_match with u.
    split; [exact Hids|].
    intros hs fmt pdf w Hurl Hfmt Hr. unfold export_request.
    rewrite handler_post by assumption.
    now apply pipeline_no_ids with pdf.
Qed.

Lemma demo_rasterizes (url : string) : rasterizes demo_platform url demo_pdf.
Proof.
  exists {| ok := true; json := Ok demo_doc |}, demo_doc.
  destruct (renderHTML demo_doc) as [html|e] eqn:E; [|vm_compute in E; discriminate].
  exists html, (VStr "/tmp/chromium"). repeat split; assumption.
Qed.

Lemma parseReportPath_enrich_reports_witness :
  parseReportPath demo_platform demo_url
  = Ok {| bizId := Some "biz1"; reportId := Some "rep1" |}
  /\ parseReportPath demo_platform other_bucket_url = Ok null_ids
  /\ exists r w',
       ApiExport.handler demo_platform (export_request [] other_bucket_url None) fresh
       = (Ok r, w')
       /\ status r = 400%Z
       /\ sent r = error_body "cannot_parse_report_path".
Proof.
  split.
  - refine (proj1 (parseReportPath_enrich_reports demo_platform demo_url
                     {| pathname := demo_path |} eq_refl) "biz1" "rep1" _).
    exists "/storage/v1/object/public". repeat split; discriminate.
  - destruct (proj2 (parseReportPath_enrich_reports demo_platform other_bucket_url
                       {| pathname := other_bucket_path |} eq_refl)
                (no_report_path other_bucket_path eq_refl)) as [Hids Hh].
    split; [exact Hids|].
    apply (Hh [] None demo_pdf fresh).
    + discriminate.
    + now left.
    + apply demo_rasterizes.
Defined.

(** C5: parseReportPath never throws: on every input it returns a value,
    which is (null, null) when the URL constructor rejects the input and when
    the path of the URL does not match the pattern. *)
Theorem parseReportPath_total (P : platform) (jsonUrl : string) :
  exists ids,
    parseReportPath P jsonUrl = Ok ids
    /\ (forall e, new_URL P jsonUrl = Throw e -> ids = null_ids)
    /\ (forall u,
          new_URL P jsonUrl = Ok u ->
          (forall biz rid, ~ report_path "enrich-reports" (pathname u) biz rid) ->
          ids = null_ids).
Proof.
  destruct (new_URL P jsonUrl) as [u|e] eqn:Hu.
  - rewrite (parseReportPath_unfold P jsonUrl u Hu).
    eexists. split; [reflexivity|]. split; [discriminate|].
    intros u' Hu' Hn. injection Hu' as <-.
    now rewrite (exec_report_path_none _ Hn).
  - rewrite (parseReportPath_malformed P jsonUrl e Hu).
    exists null_ids. split; [reflexivity|]. split; [reflexivity|].
    discriminate.
Qed.

Lemma parseReportPath_total_witness :
  parseReportPath demo_platform "not a url" = Ok null_ids
  /\ parseReportPath demo_platform other_bucket_url = Ok null_ids.
Proof.
  split.
  - destruct (parseReportPath_total demo_platform "not a url")
      as (ids & H & Hthrow & _).
    rewrite H. f_equal. eapply Hthrow. reflexivity.
  - destruct (parseReportPath_total demo_platform other_bucket_url)
      as (ids & H & _ & Hpath).
    rewrite H. f_equal. eapply Hpath; [reflexivity|].
    apply no_report_path. reflexivity.
Defined.

(** C4: when every step of the pipeline succeeds, the handler answers 200
    with the body ok: true, url: the public URL of the uploaded object; the
    object is uploaded once, at <businessId>/<reportId>/report.pdf for the
    ids parseReportPath derives from json_url, with content type
    application/pdf and upsert enabled, after the browser was closed. *)
Theorem export_success (P : platform) (hs : list (string * string))
    (url : string) (fmt : option string) (biz rid : string) (pdf : buffer)
    (err : value) (w : world) :
  url <> "" -> pdf_format fmt -> rasterizes P url pdf ->
  parseReportPath P url = Ok {| bizId := Some biz; reportId := Some rid |} ->
  storage_upload P (ApiExport.BUCKET P) (biz ++ "/" ++ rid ++ "/report.pdf") pdf
    ApiExport.upload_options = Ok err ->
  truthy err = false ->
  exists r w',
    ApiExport.handler P (export_request hs url fmt) w = (Ok r, w')
    /\ status r = 200%Z
    /\ sent r =
       Json (VObj [("ok", VBool true);
                   ("url", VStr (storage_getPublicUrl P (ApiExport.BUCKET P)
                                   (biz ++ "/" ++ rid ++ "/report.pdf")))])
    /\ (exists html exe,
         trace w' =
         (trace w ++
          [EFetch url;
           ELaunch (ApiExport.launch_options P exe);
           ENewPage;
           ESetContent html ApiExport.wait_options;
           EPdf ApiExport.pdf_options;
           EClose;
           EUpload (ApiExport.BUCKET P) (biz ++ "/" ++ rid ++ "/report.pdf") pdf
             ApiExport.upload_options;
           ESend r])%list)
    /\ prop ApiExport.upload_options "contentType" = VStr "application/pdf"
    /\ prop ApiExport.upload_options "upsert" = VBool true.
Proof.
  intros Hurl Hfmt Hr Hids Hup Herr. unfold export_request.
  rewrite handler_post by assumption.
  destruct (pipeline_uploaded P url biz rid pdf err (cors w) Hr Hids Hup Herr)
    as (r & w' & Hrun & Hs & Hb & Ht).
  exists r, w'. rewrite cors_trace in Ht. repeat split; assumption.
Qed.

Lemma export_success_witness :
  exists r w',
    ApiExport.handler demo_platform demo_request fresh = (Ok r, w')
    /\ status r = 200%Z
    /\ sent r =
       Json (VObj [("ok", VBool true);
                   ("url", VStr "https://demo.supabase.co/storage/v1/object/public/enrich-reports/biz1/rep1/report.pdf")])
    /\ In (EUpload "enrich-reports" "biz1/rep1/report.pdf" demo_pdf
             ApiExport.upload_options) (trace w').
Proof.
  destruct (export_success demo_platform [] demo_url None "biz1" "rep1" demo_pdf
              VNull fresh)
    as (r & w' & Hrun & Hs & Hb & (html & exe & Ht) & _).
  - discriminate.
  - now left.
  - apply demo_rasterizes.
  - reflexivity.
  - reflexivity.
  - reflexivity.
  - exists r, w'. repeat split; try assumption.
    rewrite Ht. simpl. do 6 right. now left.
Defined.



(** C2 fails on the code: when page.setContent throws, the handler answers
    500 while the browser it launched is still open; browser.close is never
    called. *)
Theorem stalled_page_leaves_browser_open :
  exists r w,
    ApiExport.handler stalled_platform demo_request fresh = (Ok r, w)
    /\ status r = 500%Z
    /\ existsb is_launch (trace w) = true
    /\ existsb is_close (trace w) = false
    /\ closed_before_send false (trace w) = false.
Proof. do 2 eexists. repeat split. Qed.

(** The same on every platform: once the browser is launched and the page
    is open, a throwing page.setContent ends the request without a call of
    browser.close. *)
Lemma setContent_throw_skips_close (P : platform) (url : string) (w : world)
    (r : fetch_response) (doc : value) (html : string) (exe e : value) :
  fetch P url = Ok r -> ok r = true -> json r = Ok doc ->
  renderHTML doc = Ok html ->
  chromium_executablePath P = Ok exe ->
  puppeteer_launch P (ApiExport.launch_options P exe) = Ok tt ->
  browser_newPage P = Ok tt ->
  page_setContent P html ApiExport.wait_options = Throw e ->
  exists l,
    trace (snd (try_catch_io (ApiExport.pipeline P url) ApiExport.on_error w))
    = (trace w ++ l)%list
    /\ existsb is_launch l = true
    /\ existsb is_close l = false.
Proof.
  intros Hf Hok Hj Hh He Hl Hn Hc.
  unfold ApiExport.on_error. run_steps.
  destruct (opt_member e "message") as [m|x]; simpl.
  - destruct (ToString (coalesce m e)) as [t|x]; simpl;
      eexists; (split; [rewrite <- !app_assoc; reflexivity | split; reflexivity]).
  - eexists. split; [rewrite <- !app_assoc; reflexivity | split; reflexivity].
Qed.

(** On the path where every step succeeds the browser is closed before the
    response goes out. *)
Lemma success_closes_browser :
  closed_before_send false
    (trace (snd (ApiExport.handler demo_platform demo_request fresh))) = true.
Proof. reflexivity. Qed.

(** ** The health check *)

Lemma assoc_set_header (k v : string) (l : list (string * string)) :
  assoc k (filter (fun kv => negb (String.eqb (fst kv) k)) l ++ [(k, v)])%list
  = Some v.
Proof.
  induction l as [|[k' v'] l IH]; simpl.
  - now rewrite String.eqb_refl.
  - destruct (String.eqb k' k) eqn:E; simpl; [exact IH|].
    now rewrite E.
Qed.

(** C10: the health check answers every request, whatever its method,
    headers and body, with status 200, the header Content-Type:
    application/json and the JSON text of ok: true, runtime: node. *)
Theorem hello_always_ok (req : request) (w : world) :
  exists r w',
    ApiHello.handler req w = (Ok r, w')
    /\ status r = 200%Z
    /\ assoc "Content-Type" (res_headers r) = Some "application/json"
    /\ sent r = Text hello_body
    /\ trace w' = (trace w ++ [ESend r])%list.
Proof.
  unfold ApiHello.handler, bind, setHeader, respond. simpl.
  do 2 eexists. split; [reflexivity|]. simpl. repeat split.
  apply assoc_set_header.
Qed.

(** ** Reading a document *)

Lemma member_prop (v : value) (k : string) :
  nullish v = false -> member v k = Ok (prop v k).
Proof.
  destruct v; simpl; try discriminate; try reflexivity.
  intros _. now destruct (lookup k props).
Qed.

Lemma nullish_jor_obj (v : value) : nullish (jor v (VObj [])) = false.
Proof. unfold jor. destruct v as [| |b|n|s|l|ps]; simpl; try reflexivity.
  - now destruct b.
  - now destruct (Z.eqb n 0).
  - now destruct (String.eqb s "").
Qed.

Lemma header_read (content : value) (k : string) :
  member (jor (prop content "header") (VObj [])) k = Ok (header_field content k).
Proof. apply member_prop, nullish_jor_obj. Qed.

Lemma section_read (content : value) (section k : string) :
  section_field (jor (prop content "sections") (VObj [])) section k
  = Ok (section_value content section k).
Proof.
  unfold section_field, section_value.
  rewrite member_prop by apply nullish_jor_obj. simpl.
  unfold opt_member.
  destruct (nullish (prop _ section)) eqn:E; [reflexivity|].
  now apply member_prop.
Qed.

Lemma rbind_ok {A B : Type} (m : result A) (f : A -> result B) (b : B) :
  rbind m f = Ok b -> exists a, m = Ok a /\ f a = Ok b.
Proof. destruct m as [a|e]; simpl; [eauto | discriminate]. Qed.

Lemma rbind_ext {A B : Type} (m m' : result A) (f f' : A -> result B) :
  m = m' -> (forall a, f a = f' a) -> rbind m f = rbind m' f'.
Proof. intros -> H. destruct m'; simpl; auto. Qed.

(** The substitutions with every read of the document resolved. *)
Ltac resolve_reads :=
  unfold substitutions, section_text;
  rewrite !member_prop by assumption;
  cbn [rbind];
  rewrite ?header_read, ?section_read;
  cbn [rbind].

(** Two documents whose fields the renderer cannot tell apart get the same
    substitutions, value or exception. *)
Ltac falsy_steps F1 F2 :=
  repeat first
    [ rewrite F1 | rewrite F2 | progress cbn [rbind]
    | match goal with
      | |- context [if truthy ?a then _ else _] => destruct (truthy a)
      end ].

Ltac same_hole d1 Hh Hs :=
  unfold jor;
  repeat match goal with
         | |- context [header_field d1 ?k] =>
             let E := fresh "E" in
             let F1 := fresh "F" in
             let F2 := fresh "F" in
             destruct (Hh k) as [E | [F1 F2]];
             [ rewrite E | falsy_steps F1 F2 ]
         | |- context [section_value d1 ?sec ?k] =>
             let E := fresh "E" in
             let F1 := fresh "F" in
             let F2 := fresh "F" in
             destruct (Hs sec k) as [E | [F1 F2]];
             [ rewrite E | falsy_steps F1 F2 ]
         end;
  reflexivity.

Lemma substitutions_ext (d1 d2 : value) :
  nullish d1 = false -> nullish d2 = false ->
  (forall k, same_or_falsy (header_field d1 k) (header_field d2 k)) ->
  (forall sec k, same_or_falsy (section_value d1 sec k) (section_value d2 sec k)) ->
  substitutions d1 = substitutions d2.
Proof.
  intros N1 N2 Hh Hs. resolve_reads.
  repeat (apply rbind_ext; [ same_hole d1 Hh Hs | intros ? ]).
  reflexivity.
Qed.

Lemma renderHTML_ext (d1 d2 : value) :
  nullish d1 = false -> nullish d2 = false ->
  (forall k, same_or_falsy (header_field d1 k) (header_field d2 k)) ->
  (forall sec k, same_or_falsy (section_value d1 sec k) (section_value d2 sec k)) ->
  renderHTML d1 = renderHTML d2.
Proof.
  intros N1 N2 Hh Hs. unfold renderHTML.
  now rewrite (substitutions_ext d1 d2 N1 N2 Hh Hs).
Qed.

(** ** Fields that are gone *)

(** Once a field is known to be absent, the substitutions that read only
    that field are known. *)
Ltac settle d :=
  repeat match goal with
         | Hh : ?lhs = Ok ?t |- _ =>
             is_var t;
             lazymatch lhs with
             | context [d] => fail
             | _ => vm_compute in Hh; injection Hh as <-
             end
         end.

Lemma substitutions_falsy (d : value) (x : holes) :
  nullish d = false -> substitutions d = Ok x -> defaults_where falsy d x.
Proof.
  intros Nd H. revert H. resolve_reads. intros H.
  repeat (apply rbind_ok in H; destruct H as (? & ? & H)).
  injection H as <-. unfold defaults_where, falsy. cbn [title name city comma
    country website email pill summary goals certifications operations unwto
    ctc local_impact people suppliers employee economic rec_goals
    rec_operations].
  unfold jor in *.
  repeat match goal with |- _ /\ _ => split end; intros Hgone;
    destruct (truthy (header_field d "location_city")) eqn:T;
    try congruence;
    rewrite ?Hgone in *; cbn [rbind] in *;
    rewrite ?T, ?Hgone in *; cbn [rbind] in *;
    settle d; repeat split.
Qed.

Lemma defaults_where_weaken (P Q : value -> Prop) (d : value) (x : holes) :
  (forall v, P v -> Q v) -> defaults_where Q d x -> defaults_where P d x.
Proof.
  intros HPQ H. unfold defaults_where in *.
  repeat match type of H with
         | _ /\ _ => let H1 := fresh "H" in destruct H as [H1 H]
         end.
  repeat match goal with |- _ /\ _ => split end; intros Hg; auto.
Qed.

Lemma substitutions_absent (d : value) (x : holes) :
  nullish d = false -> substitutions d = Ok x -> defaults_where absent d x.
Proof.
  intros Nd H. apply defaults_where_weaken with falsy.
  - intros v ->. reflexivity.
  - now apply substitutions_falsy.
Qed.

(** ** Falsy and absent fields *)

Lemma lookup_remove (k k' : string) (ps : list (string * value)) :
  lookup k' (remove_prop k ps) = if String.eqb k' k then None else lookup k' ps.
Proof.
  induction ps as [|[k0 v0] ps IH]; simpl.
  - now destruct (String.eqb k' k).
  - destruct (String.eqb k0 k) eqn:E0.
    + apply String.eqb_eq in E0. subst k0. rewrite IH.
      rewrite (String.eqb_sym k k'). now destruct (String.eqb k' k).
    + simpl. rewrite IH. destruct (String.eqb k0 k') eqn:E1; [|reflexivity].
      apply String.eqb_eq in E1. subst k0. now rewrite E0.
Qed.

Lemma prop_remove (k k' : string) (ps : list (string * value)) :
  prop (VObj (remove_prop k ps)) k'
  = if String.eqb k' k then VUndefined else prop (VObj ps) k'.
Proof. simpl. rewrite lookup_remove. now destruct (String.eqb k' k). Qed.

Lemma prop_set (k k' : string) (v : value) (ps : list (string * value)) :
  prop (VObj (set_prop k v ps)) k'
  = if String.eqb k' k then v else prop (VObj ps) k'.
Proof.
  simpl. rewrite (String.eqb_sym k k'), lookup_remove.
  now destruct (String.eqb k' k).
Qed.

Lemma prop_lookup (k : string) (v : value) (ps : list (string * value)) :
  lookup k ps = Some v -> prop (VObj ps) k = v.
Proof. intros H. simpl. now rewrite H. Qed.

Lemma jor_falsy (v d : value) : truthy v = false -> jor v d = d.
Proof. intros H. unfold jor. now rewrite H. Qed.

(** Reading a property of a falsy value gives undefined, with or without
    optional chaining. *)
Lemma falsy_has_no_props (v : value) (k : string) :
  truthy v = false -> (if nullish v then VUndefined else prop v k) = VUndefined.
Proof. destruct v; simpl; try reflexivity; discriminate. Qed.

Lemma same_refl (v : value) : same_or_falsy v v.
Proof. now left. Qed.

Lemma same_falsy_undefined (v : value) :
  truthy v = false -> same_or_falsy v VUndefined.
Proof. intros H. right. now split. Qed.

#[local] Hint Resolve same_refl same_falsy_undefined : core.

(** C9: a field that is present but falsy (0, false, null or the empty
    string) renders exactly as if it were absent, at every level of the
    document: a top-level property (header, sections), a field of the
    header, a section, a field of a section.  What it renders as is the
    default of its substitution, the empty string everywhere but for
    business_name and the badge, and never the text of the falsy value. *)
Theorem falsy_field_as_absent (props : list (string * value)) :
  (forall k v,
      lookup k props = Some v -> truthy v = false ->
      renderHTML (VObj props) = renderHTML (VObj (remove_prop k props)))
  /\ (forall hp k v,
        lookup "header" props = Some (VObj hp) ->
        lookup k hp = Some v -> truthy v = false ->
        renderHTML (VObj props)
        = renderHTML (VObj (set_prop "header" (VObj (remove_prop k hp)) props)))
  /\ (forall sp sec v,
        lookup "sections" props = Some (VObj sp) ->
        lookup sec sp = Some v -> truthy v = false ->
        renderHTML (VObj props)
        = renderHTML (VObj (set_prop "sections" (VObj (remove_prop sec sp)) props)))
  /\ (forall sp sec fp k v,
        lookup "sections" props = Some (VObj sp) ->
        lookup sec sp = Some (VObj fp) ->
        lookup k fp = Some v -> truthy v = false ->
        renderHTML (VObj props)
        = renderHTML
            (VObj (set_prop "sections"
                     (VObj (set_prop sec (VObj (remove_prop k fp)) sp)) props)))
  /\ (forall x,
        substitutions (VObj props) = Ok x ->
        defaults_where falsy (VObj props) x).
Proof.
  split; [|split; [|split; [|split]]].
  5: { intros x Hx. now apply substitutions_falsy. }
  - intros k v Hk Hv. apply renderHTML_ext; try reflexivity.
    + intros k'. unfold header_field. rewrite prop_remove.
      destruct (String.eqb_spec "header" k) as [<-|_]; [|auto].
      rewrite (prop_lookup _ _ _ Hk), (jor_falsy _ _ Hv). auto.
    + intros sec k'. unfold section_value. rewrite prop_remove.
      destruct (String.eqb_spec "sections" k) as [<-|_]; [|auto].
      rewrite (prop_lookup _ _ _ Hk), (jor_falsy _ _ Hv). auto.
  - intros hp k v Hh Hk Hv. apply renderHTML_ext; try reflexivity.
    + intros k'. unfold header_field. rewrite prop_set. simpl String.eqb.
      rewrite (prop_lookup _ _ _ Hh). unfold jor. simpl truthy. cbn iota.
      rewrite prop_remove.
      destruct (String.eqb_spec k' k) as [->|_]; [|auto].
      rewrite (prop_lookup _ _ _ Hk). auto.
    + intros sec k'. unfold section_value. rewrite prop_set. simpl String.eqb.
      auto.
  - intros sp sec v Hs Hk Hv. apply renderHTML_ext; try reflexivity.
    + intros k'. unfold header_field. rewrite prop_set. simpl String.eqb. auto.
    + intros sec' k'. unfold section_value. rewrite prop_set. simpl String.eqb.
      rewrite (prop_lookup _ _ _ Hs). unfold jor. simpl truthy. cbn iota.
      rewrite prop_remove.
      destruct (String.eqb_spec sec' sec) as [->|_]; [|auto].
      rewrite (prop_lookup _ _ _ Hk), (falsy_has_no_props _ _ Hv). auto.
  - intros sp sec fp k v Hs Ho Hk Hv. apply renderHTML_ext; try reflexivity.
    + intros k'. unfold header_field. rewrite prop_set. simpl String.eqb. auto.
    + intros sec' k'. unfold section_value. rewrite prop_set. simpl String.eqb.
      rewrite (prop_lookup _ _ _ Hs). unfold jor. simpl truthy. cbn iota.
      rewrite prop_set.
      destruct (String.eqb_spec sec' sec) as [->|_]; [|auto].
      rewrite (prop_lookup _ _ _ Ho). simpl nullish. cbn iota.
      rewrite prop_remove.
      destruct (String.eqb_spec k' k) as [->|_]; [|auto].
      rewrite (prop_lookup _ _ _ Hk). auto.
Qed.

Lemma falsy_field_as_absent_witness :
  renderHTML (VObj [("header", VNull)])
  = renderHTML (VObj (remove_prop "header" [("header", VNull)]))
  /\ renderHTML (VObj [("header", VObj [("business_name", VNum 0)])])
     = renderHTML
         (VObj (set_prop "header"
                  (VObj (remove_prop "business_name" [("business_name", VNum 0)]))
                  [("header", VObj [("business_name", VNum 0)])]))
  /\ renderHTML (VObj [("sections", VObj [("overview", VBool false)])])
     = renderHTML
         (VObj (set_prop "sections"
                  (VObj (remove_prop "overview" [("overview", VBool false)]))
                  [("sections", VObj [("overview", VBool false)])]))
  /\ renderHTML (VObj [("sections", VObj [("overview", VObj [("goals", VStr "")])])])
     = renderHTML
         (VObj (set_prop "sections"
                  (VObj (set_prop "overview"
                           (VObj (remove_prop "goals" [("goals", VStr "")]))
                           [("overview", VObj [("goals", VStr "")])]))
                  [("sections", VObj [("overview", VObj [("goals", VStr "")])])]))
  /\ (exists x,
        substitutions (VObj [("header", VObj [("location_city", VNum 0)])]) = Ok x
        /\ city x = "" /\ comma x = "").
Proof.
  split; [|split; [|split; [|split]]].
  5: { destruct (substitutions (VObj [("header", VObj [("location_city", VNum 0)])]))
         as [x|e] eqn:Hx; [|vm_compute in Hx; discriminate].
       exists x. split; [reflexivity|].
       destruct (proj2 (proj2 (proj2 (proj2 (falsy_field_as_absent
                   [("header", VObj [("location_city", VNum 0)])])))) x Hx)
         as (_ & Hcity & _).
       apply Hcity. reflexivity. }
  - apply (proj1 (falsy_field_as_absent [("header", VNull)]) "header" VNull);
      reflexivity.
  - apply (proj1 (proj2 (falsy_field_as_absent
                           [("header", VObj [("business_name", VNum 0)])]))
             [("business_name", VNum 0)] "business_name" (VNum 0));
      reflexivity.
  - apply (proj1 (proj2 (proj2 (falsy_field_as_absent
                           [("sections", VObj [("overview", VBool false)])])))
             [("overview", VBool false)] "overview" (VBool false));
      reflexivity.
  - apply (proj1 (proj2 (proj2 (proj2 (falsy_field_as_absent
                           [("sections", VObj [("overview", VObj [("goals", VStr "")])])]))))
             [("overview", VObj [("goals", VStr "")])] "overview"
             [("goals", VStr "")] "goals" (VStr ""));
      reflexivity.
Defined.

(** ** Determinism *)




(** ** Escaping *)

Lemma escapeHtml_plain (v : value) :
  plain v = true -> exists t, escapeHtml v = Ok t.
Proof.
  unfold escapeHtml, jor.
  destruct v as [| |[|]|n|s|l|ps]; simpl; try discriminate; intros _; eauto.
  - destruct (Z.eqb n 0); simpl; eauto.
  - destruct (String.eqb s ""); simpl; eauto.
Qed.

Lemma escapeAttr_plain (v : value) :
  plain v = true -> exists t, escapeAttr v = Ok t.
Proof.
  intros H. unfold escapeAttr. destruct (escapeHtml_plain v H) as [t ->].
  simpl. eauto.
Qed.

Lemma plain_jor (v : value) (s : string) :
  plain v = true -> plain (jor v (VStr s)) = true.
Proof. unfold jor. now destruct (truthy v). Qed.

Lemma special_cases (a : ascii) :
  accepts html_special a = true ->
  a = "&"%char \/ a = "<"%char \/ a = ">"%char \/ a = "034"%char \/ a = "'"%char.
Proof.
  unfold accepts, html_special. simpl.
  repeat match goal with
         | |- context [Ascii.eqb ?x a] => destruct (Ascii.eqb_spec x a); auto 6
         end.
  discriminate.
Qed.

(** What [escapeHtml] returns holds no angle bracket and no quote. *)
Lemma escaped_has_none (c : ascii) (s : string) :
  occurs c ("<>'" ++ dq) = true ->
  occurs c (replace_all html_special entity s) = false.
Proof.
  intros Hc.
  assert (Hc' : c = "<"%char \/ c = ">"%char \/ c = "'"%char \/ c = "034"%char).
  { simpl in Hc.
    repeat match type of Hc with
           | context [Ascii.eqb ?x c] => destruct (Ascii.eqb_spec x c); auto
           end.
    discriminate. }
  induction s as [|a s IH]; cbn [replace_all]; [reflexivity|].
  destruct (accepts html_special a) eqn:Ha.
  - rewrite occurs_append, IH, orb_false_r.
    destruct (special_cases a Ha) as [-> | [-> | [-> | [-> | ->]]]];
      destruct Hc' as [-> | [-> | [-> | ->]]]; reflexivity.
  - cbn [occurs]. rewrite IH, orb_false_r.
    destruct (Ascii.eqb_spec a c) as [->|]; [|reflexivity].
    unfold accepts, html_special in Ha. simpl in Ha.
    destruct Hc' as [-> | [-> | [-> | ->]]]; discriminate.
Qed.

Lemma replace_all_absent (cs : string) (f : string -> string) (s : string) :
  all_accept (NoneOf cs) s = true -> replace_all (OneOf cs) f s = s.
Proof.
  induction s as [|a s IH]; simpl; [reflexivity|].
  intros H. apply andb_true_iff in H as [Ha Hs].
  apply negb_true_iff in Ha. rewrite Ha. now rewrite (IH Hs).
Qed.

Lemma no_dq_all_accept (s : string) :
  occurs "034"%char s = false -> all_accept (NoneOf dq) s = true.
Proof.
  induction s as [|a s IH]; simpl; [reflexivity|].
  intros H. apply orb_false_iff in H as [Ha Hs].
  rewrite (IH Hs), andb_true_r, orb_false_r.
  now rewrite Ascii.eqb_sym, Ha.
Qed.

(** The second replacement of [escapeAttr] never fires: [escapeHtml] has
    already turned every double quote into an entity. *)
Lemma escapeAttr_escapeHtml (v : value) : escapeAttr v = escapeHtml v.
Proof.
  unfold escapeAttr, escapeHtml.
  destruct (ToString (jor v (VStr ""))) as [str|e]; simpl; [|reflexivity].
  f_equal. apply replace_all_absent, no_dq_all_accept.
  now apply escaped_has_none.
Qed.


(** ** Missing fields *)

Ltac plain_side Hh Hs :=
  first [ apply Hh | apply Hs | apply plain_jor; first [ apply Hh | apply Hs ] ].

Lemma substitutions_plain (d : value) :
  nullish d = false -> plain_fields d -> exists x, substitutions d = Ok x.
Proof.
  intros Nd [Hh Hs]. resolve_reads.
  repeat match goal with
         | |- context [escapeHtml ?v] =>
             let t := fresh "t" in
             let E := fresh "E" in
             destruct (escapeHtml_plain v) as [t E];
             [ plain_side Hh Hs | rewrite E; clear E; cbn [rbind] ]
         | |- context [escapeAttr ?v] =>
             let t := fresh "t" in
             let E := fresh "E" in
             destruct (escapeAttr_plain v) as [t E];
             [ plain_side Hh Hs | rewrite E; clear E; cbn [rbind] ]
         | |- context [if truthy ?a then _ else _] =>
             destruct (truthy a); cbn [rbind]
         end.
  all: eauto.
Qed.

(** C7, as stated, fails: with business_name missing, the two substitutions
    that read it are not the empty string. *)
Lemma missing_business_name_not_empty :
  header_field (VObj []) "business_name" = VUndefined
  /\ exists x,
       substitutions (VObj []) = Ok x /\ title x <> "" /\ name x <> "".
Proof.
  split; [reflexivity|].
  exists default_holes. repeat split; discriminate.
Qed.

(** C7, amended: in every report document, each missing header or section
    field is rendered as the empty string, except business_name, which falls
    back to Business Overview in the title and to Business in the heading,
    and the status badge, which falls back to Initiated; a document whose
    fields are absent or primitive always renders, and the HTML of the empty
    document holds neither the text undefined nor the text null. *)
Theorem missing_fields_defaults :
  (forall d x,
      nullish d = false -> substitutions d = Ok x -> defaults_where absent d x)
  /\ (forall d,
        nullish d = false -> plain_fields d ->
        exists x, substitutions d = Ok x /\ renderHTML d = Ok (page x))
  /\ renderHTML (VObj []) = Ok (page default_holes)
  /\ contains "undefined" (page default_holes) = false
  /\ contains "null" (page default_holes) = false.
Proof.
  split; [|split; [|split; [|split]]].
  - exact substitutions_absent.
  - intros d Nd Hp. destruct (substitutions_plain d Nd Hp) as [x Hx].
    exists x. split; [exact Hx|]. unfold renderHTML. now rewrite Hx.
  - reflexivity.
  - vm_compute. reflexivity.
  - vm_compute. reflexivity.
Qed.

Lemma plain_prop (ps : list (string * value)) (k : string) :
  Forall (fun kv => plain (snd kv) = true) ps -> plain (prop (VObj ps) k) = true.
Proof.
  induction 1 as [|[k0 v0] ps Hv Hps IH]; simpl; [reflexivity|].
  destruct (String.eqb k0 k); [exact Hv | exact IH].
Qed.

Lemma demo_doc_plain : plain_fields demo_doc.
Proof.
  split.
  - intros k.
    change (header_field demo_doc k)
      with (prop (VObj [("business_name", VStr "Acme")]) k).
    apply plain_prop. repeat constructor.
  - intros sec k. reflexivity.
Qed.

Lemma missing_fields_defaults_witness :
  exists x,
    substitutions demo_doc = Ok x
    /\ renderHTML demo_doc = Ok (page x)
    /\ city x = "" /\ comma x = "" /\ website x = ""
    /\ pill x = "Initiated" /\ summary x = "".
Proof.
  destruct missing_fields_defaults as (Habs & Htotal & _).
  destruct (Htotal demo_doc eq_refl demo_doc_plain) as (x & Hx & Hr).
  exists x. split; [exact Hx|]. split; [exact Hr|].
  destruct (Habs demo_doc x eq_refl Hx)
    as (_ & Hcity & _ & Hsite & _ & Hpill & Hsum & _).
  destruct (Hcity eq_refl) as [-> ->].
  rewrite (Hsite eq_refl), (Hpill eq_refl), (Hsum eq_refl).
  repeat split.
Defined.

(** * Further properties of the code *)

(** ** What escapeHtml returns *)

Lemma escapeHtml_text (v : value) (t : string) :
  escapeHtml v = Ok t -> exists s, ToString (jor v (VStr "")) = Ok s /\ t = esc s.
Proof.
  unfold escapeHtml. destruct (ToString (jor v (VStr ""))) as [s|e]; simpl.
  - intros H. injection H as <-. eauto.
  - discriminate.
Qed.

Lemma escapeHtml_string (s : string) : escapeHtml (VStr s) = Ok (esc s).
Proof.
  unfold escapeHtml, jor. simpl.
  destruct (String.eqb_spec s "") as [->|]; reflexivity.
Qed.

Lemma esc_no_markup (s : string) : no_markup (esc s) = true.
Proof.
  unfold no_markup, esc.
  rewrite !escaped_has_none by reflexivity. reflexivity.
Qed.

(** Comparisons of two known characters, which [cbn] leaves alone. *)
Ltac eval_chars :=
  repeat (cbn;
          match goal with
          | |- context [Ascii.eqb (Ascii ?a0 ?a1 ?a2 ?a3 ?a4 ?a5 ?a6 ?a7)
                                  (Ascii ?b0 ?b1 ?b2 ?b3 ?b4 ?b5 ?b6 ?b7)] =>
              let x := constr:(Ascii a0 a1 a2 a3 a4 a5 a6 a7) in
              let y := constr:(Ascii b0 b1 b2 b3 b4 b5 b6 b7) in
              let b := eval vm_compute in (Ascii.eqb x y) in
              change (Ascii.eqb x y) with b
          end);
  cbn.

Lemma entities_only_append_entity (a : ascii) (t : string) :
  accepts html_special a = true -> entities_only t = true ->
  entities_only (entity (String a "") ++ t) = true.
Proof.
  intros Ha Ht.
  destruct (special_cases a Ha) as [-> | [-> | [-> | [-> | ->]]]];
    eval_chars; exact Ht.
Qed.

Lemma esc_entities_only (s : string) : entities_only (esc s) = true.
Proof.
  unfold esc. induction s as [|a s IH]; cbn [replace_all]; [reflexivity|].
  destruct (accepts html_special a) eqn:Ha.
  - now apply entities_only_append_entity.
  - cbn [entities_only]. rewrite IH, andb_true_r.
    destruct (Ascii.eqb_spec a "&") as [->|]; [discriminate | reflexivity].
Qed.

(** X1: whatever value it is given, the text escapeHtml returns holds no
    angle bracket and no quote, and each of its ampersands opens one of the
    five entities. *)
Theorem escapeHtml_output_is_inert (v : value) (t : string) :
  escapeHtml v = Ok t -> no_markup t = true /\ entities_only t = true.
Proof.
  intros H. destruct (escapeHtml_text v t H) as (s & _ & ->).
  split; [apply esc_no_markup | apply esc_entities_only].
Qed.

Lemma escapeHtml_output_is_inert_witness :
  no_markup "&lt;b&gt;R&amp;D&lt;/b&gt;" = true
  /\ entities_only "&lt;b&gt;R&amp;D&lt;/b&gt;" = true.
Proof.
  apply (escapeHtml_output_is_inert (VStr "<b>R&D</b>")). reflexivity.
Defined.

Lemma entity_not_empty (a : ascii) (t : string) :
  accepts html_special a = true -> entity (String a "") ++ t <> "".
Proof.
  intros Ha.
  destruct (special_cases a Ha) as [-> | [-> | [-> | [-> | ->]]]]; discriminate.
Qed.

Lemma entity_head (a b : ascii) (t u : string) :
  accepts html_special a = true -> accepts html_special b = false ->
  entity (String a "") ++ t <> String b u.
Proof.
  intros Ha Hb H.
  assert (b = "&"%char).
  { destruct (special_cases a Ha) as [-> | [-> | [-> | [-> | ->]]]];
      cbn in H; now injection H. }
  subst b. discriminate.
Qed.

Lemma entity_inj (a b : ascii) (t u : string) :
  accepts html_special a = true -> accepts html_special b = true ->
  entity (String a "") ++ t = entity (String b "") ++ u -> a = b /\ t = u.
Proof.
  intros Ha Hb H.
  destruct (special_cases a Ha) as [-> | [-> | [-> | [-> | ->]]]];
    destruct (special_cases b Hb) as [-> | [-> | [-> | [-> | ->]]]];
    cbn in H; first [ discriminate H | injection H as ->; now split ].
Qed.

Lemma esc_inj (s1 s2 : string) : esc s1 = esc s2 -> s1 = s2.
Proof.
  unfold esc. revert s2.
  induction s1 as [|a s1 IH]; intros [|b s2]; cbn [replace_all]; intros H.
  - reflexivity.
  - destruct (accepts html_special b) eqn:Hb; [|discriminate].
    symmetry in H. now apply entity_not_empty in H.
  - destruct (accepts html_special a) eqn:Ha; [|discriminate].
    now apply entity_not_empty in H.
  - destruct (accepts html_special a) eqn:Ha;
      destruct (accepts html_special b) eqn:Hb.
    + apply entity_inj in H as [-> H]; auto. f_equal. now apply IH.
    + now apply entity_head in H.
    + symmetry in H. now apply entity_head in H.
    + injection H as -> H. f_equal. now apply IH.
Qed.

(** X2: escapeHtml loses nothing: two strings with the same escaped text are
    the same string. *)
Theorem escapeHtml_injective (s1 s2 : string) :
  escapeHtml (VStr s1) = escapeHtml (VStr s2) -> s1 = s2.
Proof.
  rewrite !escapeHtml_string. intros H. injection H as H. now apply esc_inj.
Qed.

Lemma escapeHtml_injective_witness :
  escapeHtml (VStr "<") <> escapeHtml (VStr "&lt;").
Proof.
  intros H. apply escapeHtml_injective in H. discriminate H.
Defined.

Lemma entity_length (a : ascii) :
  accepts html_special a = true -> 4 <= String.length (entity (String a "")).
Proof.
  intros Ha.
  destruct (special_cases a Ha) as [-> | [-> | [-> | [-> | ->]]]];
    vm_compute; lia.
Qed.

Lemma esc_length (s : string) : String.length s <= String.length (esc s).
Proof.
  unfold esc. induction s as [|a s IH]; cbn [replace_all]; [reflexivity|].
  destruct (accepts html_special a) eqn:Ha.
  - rewrite length_append. pose proof (entity_length a Ha). simpl. lia.
  - simpl. lia.
Qed.

(** X3: escapeHtml returns a string unchanged exactly when the string holds
    none of the five characters. *)
Theorem escapeHtml_identity_iff (s : string) :
  escapeHtml (VStr s) = Ok s <-> unmarked s = true.
Proof.
  rewrite escapeHtml_string. split.
  - intros H. injection H as H. unfold unmarked, esc in *.
    induction s as [|a s IH]; [reflexivity|].
    cbn [replace_all] in H. cbn [all_accept].
    change (accepts (NoneOf ("&<>" ++ dq ++ "'")) a)
      with (negb (accepts html_special a)).
    destruct (accepts html_special a) eqn:Ha.
    + apply (f_equal String.length) in H. rewrite length_append in H.
      pose proof (entity_length a Ha). pose proof (esc_length s).
      unfold esc in *. simpl in H. lia.
    + injection H as H. simpl. now apply IH.
  - intros H. f_equal. unfold esc, html_special.
    now apply replace_all_absent.
Qed.

Lemma escapeHtml_identity_iff_witness :
  escapeHtml (VStr "Acme Tours 2024") = Ok "Acme Tours 2024".
Proof. apply escapeHtml_identity_iff. reflexivity. Defined.

(** X4: escapeAttr returns on every value exactly what escapeHtml returns:
    the text it puts in the href attribute holds no double quote for its own
    replacement to find. *)
Theorem escapeAttr_adds_nothing (v : value) :
  escapeAttr v = escapeHtml v
  /\ forall t, escapeAttr v = Ok t -> occurs "034" t = false.
Proof.
  split; [apply escapeAttr_escapeHtml|].
  intros t. rewrite escapeAttr_escapeHtml. intros H.
  destruct (escapeHtml_text v t H) as (s & _ & ->).
  now apply escaped_has_none.
Qed.

Lemma escapeAttr_adds_nothing_witness :
  occurs "034" "https://a.example/?q=&quot;x&quot;" = false.
Proof.
  apply (proj2 (escapeAttr_adds_nothing (VStr quoted_site))). reflexivity.
Defined.

(** ** What reaches the page *)

Lemma escapeHtml_no_markup (v : value) (t : string) :
  escapeHtml v = Ok t -> no_markup t = true.
Proof.
  intros H. destruct (escapeHtml_text v t H) as (s & _ & ->).
  apply esc_no_markup.
Qed.

Lemma no_markup_append (a b : string) :
  no_markup (a ++ b) = no_markup a && no_markup b.
Proof.
  unfold no_markup. rewrite !occurs_append.
  repeat match goal with |- context [occurs ?c ?t] => destruct (occurs c t) end;
    reflexivity.
Qed.

Lemma Ok_inj {A : Type} (a b : A) : Ok a = Ok b -> a = b.
Proof. now intros [= ->]. Qed.

Ltac inert_hole :=
  match goal with
  | H : escapeHtml _ = Ok ?t |- no_markup ?t = true =>
      exact (escapeHtml_no_markup _ _ H)
  | H : (if ?b then _ else _) = Ok ?t |- no_markup ?t = true =>
      destruct b;
      [ first [ exact (escapeHtml_no_markup _ _ H)
              | let E := fresh "E" in
                apply rbind_ok in H; destruct H as (? & E & H);
                apply Ok_inj in H; rewrite <- H, no_markup_append;
                rewrite (escapeHtml_no_markup _ _ E); reflexivity ]
      | injection H as <-; reflexivity ]
  end.

Lemma substitutions_inert (d : value) (x : holes) :
  nullish d = false -> substitutions d = Ok x -> inert_holes x.
Proof.
  intros Nd H. revert H. resolve_reads. intros H.
  repeat (apply rbind_ok in H; destruct H as (? & ? & H)).
  injection H as <-. unfold inert_holes. cbn [title name city comma
    country website email pill summary goals certifications operations unwto
    ctc local_impact people suppliers employee economic rec_goals
    rec_operations].
  repeat match goal with |- _ /\ _ => split end; try inert_hole.
  - destruct (truthy (header_field d "location_city")); cbn [rbind] in *;
      match goal with
      | Hc : Ok (if ?b then _ else _) = Ok _ |- _ =>
          destruct b; injection Hc as <-; auto
      end.
  - match goal with
    | Hw : (if ?b then _ else _) = Ok _ |- _ =>
        destruct b; [|injection Hw as <-; now left];
        rewrite escapeAttr_escapeHtml in Hw;
        apply rbind_ok in Hw; destruct Hw as (a & Ea & Hw);
        rewrite Ea in Hw; cbn [rbind] in Hw; apply Ok_inj in Hw;
        rewrite <- Hw
    end.
    right. exists a. destruct (escapeHtml_text _ _ Ea) as (s & _ & ->).
    repeat split; [apply esc_no_markup | apply esc_entities_only].
Qed.

(** X5: no field of a document can bring markup into the page: whatever the
    values of the fields, every substitution but two holds no angle bracket
    and no quote, the comma is one of two fixed texts, and the website
    substitution is empty or the fixed link around one escaped text, used
    both as the address and as the label. *)
Theorem renderHTML_fields_are_inert (d : value) (html : string) :
  nullish d = false -> renderHTML d = Ok html ->
  exists x, html = page x /\ inert_holes x.
Proof.
  intros Nd H. unfold renderHTML in H.
  apply rbind_ok in H as (x & Hx & H). apply Ok_inj in H.
  exists x. split; [now symmetry|]. now apply substitutions_inert with d.
Qed.

Lemma renderHTML_fields_are_inert_witness :
  exists x, page default_holes = page x /\ inert_holes x.
Proof.
  apply (renderHTML_fields_are_inert (VObj [])); reflexivity.
Defined.


(** X6: a document that is not null and has no header and no sections, be
    it an empty object, a number, a string or an array, renders as the page
    of defaults; a null document makes renderHTML throw a TypeError. *)
Theorem renderHTML_without_content (d : value) :
  (nullish d = false ->
   truthy (prop d "header") = false -> truthy (prop d "sections") = false ->
   renderHTML d = Ok (page default_holes))
  /\ (nullish d = true ->
      exists m, renderHTML d = Throw (js_error "TypeError" m)).
Proof.
  split.
  - intros Nd Hh Hs.
    change (Ok (page default_holes)) with (renderHTML (VObj [])).
    apply renderHTML_ext; try assumption; try reflexivity.
    + intros k. unfold header_field. rewrite (jor_falsy _ _ Hh). auto.
    + intros sec k. unfold section_value. rewrite (jor_falsy _ _ Hs). auto.
  - destruct d; try discriminate; intros _; eexists; reflexivity.
Qed.

Lemma renderHTML_without_content_witness :
  renderHTML (VArr [VNum 1; VNum 2]) = Ok (page default_holes)
  /\ exists m, renderHTML VNull = Throw (js_error "TypeError" m).
Proof.
  split.
  - apply (proj1 (renderHTML_without_content (VArr [VNum 1; VNum 2])));
      reflexivity.
  - apply (proj2 (renderHTML_without_content VNull)). reflexivity.
Defined.









(** ** Every run of the export handler *)

#[local] Arguments String.eqb : simpl never.
#[local] Arguments ApiExport.on_error : simpl never.
#[local] Arguments ApiExport.BUCKET : simpl never.
#[local] Arguments parseReportPath : simpl never.
#[local] Arguments renderHTML : simpl never.
#[local] Arguments truthy : simpl never.

(** The catch block logs, then answers 500 or throws itself. *)
Lemma on_error_run (e : value) (w : world) :
  (exists t,
      ApiExport.on_error e w
      = (Ok {| status := 500; res_headers := headers w;
               sent := Json (VObj [("error", VStr t)]) |},
         {| headers := headers w;
            trace := (trace w ++ [ELog e;
                       ESend {| status := 500; res_headers := headers w;
                                sent := Json (VObj [("error", VStr t)]) |}])%list |}))
  \/ (exists x,
        ApiExport.on_error e w
        = (Throw x, {| headers := headers w;
                       trace := (trace w ++ [ELog e])%list |})).
Proof.
  unfold ApiExport.on_error, bind, emit, lift, respond. cbn.
  destruct (opt_member e "message") as [m|x]; cbn.
  - destruct (ToString (coalesce m e)) as [t|x]; cbn.
    + left. exists t. now rewrite <- app_assoc.
    + right. now exists x.
  - right. now exists x.
Qed.

(** Comparisons of two known strings, which [cbn] leaves alone here. *)
Ltac eval_strings :=
  repeat match goal with
         | |- context [String.eqb ?a ?b] =>
             let v := eval vm_compute in (String.eqb a b) in
             lazymatch v with
             | true => change (String.eqb a b) with true
             | false => change (String.eqb a b) with false
             end
         end.

(** Case analysis on every outcome the handler consults, innermost first;
    the catch block is left to [caught]. *)
Ltac crunch :=
  unfold ApiExport.handler, ApiExport.withCORS, ApiExport.pipeline,
    try_catch_io, bind, call, emit, lift, respond, throw, setHeader;
  repeat (cbn; eval_strings; cbn;
          match goal with
          | |- context [match ?x with _ => _ end] =>
              lazymatch x with
              | context [match _ with _ => _ end] => fail
              | context [ApiExport.on_error] => fail
              | _ => destruct x eqn:?
              end
          end);
  cbn.

Ltac caught :=
  match goal with
  | |- context [ApiExport.on_error ?e ?w] =>
      let t := fresh "t" in
      let x := fresh "x" in
      let E := fresh "E" in
      destruct (on_error_run e w) as [[t E] | [x E]]; rewrite E; cbn
  end.

(** X8: every run of the export handler, whatever the request and whatever
    the services answer, is a run of the pipeline in its order: fetch, launch,
    newPage, setContent, pdf, close, upload, each at most once and none
    without the one before, then at most one log, then at most one response
    and nothing after it.  The response the handler returns is the last
    event of the run; when the handler rejects, no response was sent. *)
Theorem export_protocol (P : platform) (req : request) :
  in_order 1 (trace (snd (ApiExport.handler P req fresh))) = true
  /\ match fst (ApiExport.handler P req fresh) with
     | Ok r => last_event (trace (snd (ApiExport.handler P req fresh)))
               = Some (ESend r)
     | Throw _ => existsb is_send (trace (snd (ApiExport.handler P req fresh)))
                  = false
     end.
Proof.
  crunch. all: try caught. all: split; reflexivity.
Qed.

(** X9: every response of the export handler, the errors and the preflight
    answer included, carries the three CORS headers and no other. *)
Theorem cors_on_every_response (P : platform) (req : request) :
  match fst (ApiExport.handler P req fresh) with
  | Ok r => res_headers r = cors_headers
  | Throw _ => True
  end.
Proof.
  crunch. all: try caught. all: first [ reflexivity | exact I ].
Qed.

(** X10: the checks on the request come before anything else and in this
    order: an OPTIONS request is answered 204 with an empty body whatever it
    carries; any other method than POST is answered 405 method_not_allowed;
    a POST without a body, without json_url or with an empty one is answered
    400 missing_json_url whatever its format.  In each case the response is
    the only event: no service is called. *)
Theorem request_validation (P : platform) (req : request) (w : world) :
  (method req = "OPTIONS" ->
   exists r w',
     ApiExport.handler P req w = (Ok r, w')
     /\ status r = 204%Z /\ sent r = Text ""
     /\ trace w' = (trace w ++ [ESend r])%list)
  /\ (method req <> "OPTIONS" -> method req <> "POST" ->
      exists r w',
        ApiExport.handler P req w = (Ok r, w')
        /\ status r = 405%Z /\ sent r = error_body "method_not_allowed"
        /\ trace w' = (trace w ++ [ESend r])%list)
  /\ (method req = "POST" ->
      (body req = None
       \/ exists p, body req = Some p /\ ApiExport.missing (json_url p) = true) ->
      exists r w',
        ApiExport.handler P req w = (Ok r, w')
        /\ status r = 400%Z /\ sent r = error_body "missing_json_url"
        /\ trace w' = (trace w ++ [ESend r])%list).
Proof.
  unfold ApiExport.handler, ApiExport.withCORS, try_catch_io, bind, respond,
    setHeader.
  split; [|split].
  - intros ->. cbn. eval_strings. cbn. do 2 eexists. repeat split.
  - intros H1 H2. apply String.eqb_neq in H1, H2. cbn. rewrite H1, H2. cbn.
    do 2 eexists. repeat split.
  - intros -> [-> | (p & -> & Hp)]; cbn; eval_strings; cbn; rewrite ?Hp; cbn;
      do 2 eexists; repeat split.
Qed.

Lemma request_validation_witness :
  (exists r w',
      ApiExport.handler demo_platform
        {| method := "OPTIONS"; req_headers := []; body := None |} fresh
      = (Ok r, w') /\ status r = 204%Z)
  /\ (exists r w',
        ApiExport.handler demo_platform
          {| method := "GET"; req_headers := []; body := None |} fresh
        = (Ok r, w') /\ status r = 405%Z)
  /\ (exists r w',
        ApiExport.handler demo_platform
          (post {| json_url := Some ""; format := Some "docx" |}) fresh
        = (Ok r, w') /\ sent r = error_body "missing_json_url").
Proof.
  split; [|split].
  - destruct (proj1 (request_validation demo_platform
                       {| method := "OPTIONS"; req_headers := []; body := None |}
                       fresh) eq_refl) as (r & w' & H & Hs & _).
    now exists r, w'.
  - destruct (proj1 (proj2 (request_validation demo_platform
                       {| method := "GET"; req_headers := []; body := None |}
                       fresh))) as (r & w' & H & Hs & _);
      [discriminate | discriminate |].
    now exists r, w'.
  - destruct (proj2 (proj2 (request_validation demo_platform
                       (post {| json_url := Some ""; format := Some "docx" |})
                       fresh)) eq_refl) as (r & w' & H & _ & Hs & _).
    + right. eexists. split; reflexivity.
    + now exists r, w'.
Defined.

(** X11: when the fetch of json_url answers with a status that is not ok, the
    handler answers 400 invalid_json_url at once: the body of the fetched
    response is not read, no browser is launched, nothing is uploaded. *)
Theorem fetch_not_ok (P : platform) (hs : list (string * string))
    (url : string) (fmt : option string) (r0 : fetch_response) (w : world) :
  url <> "" -> pdf_format fmt ->
  fetch P url = Ok r0 -> ok r0 = false ->
  exists r w',
    ApiExport.handler P (export_request hs url fmt) w = (Ok r, w')
    /\ status r = 400%Z /\ sent r = error_body "invalid_json_url"
    /\ trace w' = (trace w ++ [EFetch url; ESend r])%list.
Proof.
  intros Hurl Hfmt Hf Hok. unfold export_request.
  rewrite handler_post by assumption.
  unfold try_catch_io, ApiExport.pipeline, bind, call, emit, lift, respond.
  cbn. rewrite Hf. cbn. rewrite Hok. cbn.
  do 2 eexists. repeat split. cbn. now rewrite <- app_assoc.
Qed.

Lemma fetch_not_ok_witness :
  exists r w',
    ApiExport.handler not_found_platform demo_request fresh = (Ok r, w')
    /\ sent r = error_body "invalid_json_url"
    /\ trace w' = [EFetch demo_url; ESend r].
Proof.
  destruct (fetch_not_ok not_found_platform [] demo_url None
              {| ok := false; json := Throw (js_error "SyntaxError" "Unexpected token") |}
              fresh) as (r & w' & H & _ & Hs & Ht).
  - discriminate.
  - now left.
  - reflexivity.
  - reflexivity.
  - now exists r, w'.
Defined.

(** X12: whatever the input, parseReportPath returns either (null, null) or
    two ids, never one without the other, and the ids it returns are not
    empty and hold no slash. *)
Theorem parseReportPath_ids_wellformed (P : platform) (url : string) :
  parseReportPath P url = Ok null_ids
  \/ exists biz rid,
       parseReportPath P url = Ok {| bizId := Some biz; reportId := Some rid |}
       /\ biz <> "" /\ rid <> "" /\ slash_free biz /\ slash_free rid.
Proof.
  destruct (new_URL P url) as [u|e] eqn:Hu.
  - rewrite (parseReportPath_unfold P url u Hu).
    destruct (regex_exec report_path_re (pathname u)) as [cs|] eqn:E.
    + right.
      destruct (exec_report_path_sound _ _ E)
        as (biz & rid & (pre & _ & Hb & Hr & Sb & Sr) & C1 & C2).
      exists biz, rid. cbn [group_or_null]. rewrite C1, C2. auto.
    + now left.
  - left. now apply parseReportPath_malformed with e.
Qed.

(** ** Exceptions *)

Lemma js_error_is_error (name m : string) : is_error (js_error name m).
Proof. now exists name, m. Qed.

Lemma ToString_throws (v : value) (e : value) :
  ToString v = Throw e -> is_error e.
Proof.
  revert v e. fix IH 1.
  intros [| | [|] | n | s | items | props] e; cbn; try discriminate.
  - revert items e. fix IHl 1. intros [|x rest] e; [discriminate|].
    intros H.
    assert (Hx : forall e', match x with
                            | VUndefined | VNull => Ok ""
                            | _ => ToString x
                            end = Throw e' -> is_error e').
    { pose proof (IH x) as IHx. intros e' Hx.
      destruct x; try discriminate; exact (IHx _ Hx). }
    pose proof (IHl rest) as IHr.
    destruct rest as [|y rest'].
    + exact (Hx e H).
    + destruct (match x with
                | VUndefined | VNull => Ok ""
                | _ => ToString x
                end) as [a|e'] eqn:Ex.
      * match type of H with
        | match ?j with _ => _ end = _ =>
            destruct j as [b|e''] eqn:Ej; [discriminate|]
        end.
        injection H as <-. exact (IHr _ eq_refl).
      * injection H as <-. exact (Hx _ eq_refl).
  - destruct (lookup "toString" props); [|discriminate].
    intros H. injection H as <-. apply js_error_is_error.
Qed.

Lemma escapeHtml_throws (v e : value) : escapeHtml v = Throw e -> is_error e.
Proof.
  unfold escapeHtml.
  destruct (ToString (jor v (VStr ""))) as [s|x] eqn:E; cbn; [discriminate|].
  intros H. injection H as <-. exact (ToString_throws _ _ E).
Qed.

Lemma rbind_throw {A B : Type} (m : result A) (f : A -> result B) (e : value) :
  rbind m f = Throw e -> m = Throw e \/ exists a, m = Ok a /\ f a = Throw e.
Proof.
  destruct m as [a|x]; cbn; intros H; [eauto|].
  left. now injection H as ->.
Qed.

(** A substitution throws nothing but an [Error]. *)
Ltac hole_throws :=
  repeat match goal with
         | H : escapeHtml _ = Throw _ |- _ => exact (escapeHtml_throws _ _ H)
         | H : Ok _ = Throw _ |- _ => discriminate H
         | H : escapeAttr _ = Throw _ |- _ => rewrite escapeAttr_escapeHtml in H
         | H : (if ?b then _ else _) = Throw _ |- _ => destruct b
         | H : rbind _ _ = Throw _ |- _ =>
             apply rbind_throw in H; destruct H as [H | (? & ? & H)]
         end.

Lemma renderHTML_throws (d e : value) : renderHTML d = Throw e -> is_error e.
Proof.
  unfold renderHTML. intros H.
  apply rbind_throw in H as [H | (x & _ & H)]; [|discriminate].
  destruct (nullish d) eqn:Nd.
  - destruct d; try discriminate; cbn in H; injection H as <-;
      apply js_error_is_error.
  - revert H. resolve_reads. intros H.
    repeat match type of H with
           | rbind ?m _ = Throw _ =>
               let E := fresh "E" in
               destruct m eqn:E; cbn [rbind] in H;
               [ clear E | injection H as <-; hole_throws ]
           end.
    discriminate.
Qed.

Lemma on_error_error (name m : string) (w : world) :
  ApiExport.on_error (js_error name m) w
  = (Ok {| status := 500; res_headers := headers w;
           sent := Json (VObj [("error", VStr m)]) |},
     {| headers := headers w;
        trace := (trace w ++ [ELog (js_error name m);
                   ESend {| status := 500; res_headers := headers w;
                            sent := Json (VObj [("error", VStr m)]) |}])%list |}).
Proof.
  unfold ApiExport.on_error, bind, emit, lift, respond, js_error, opt_member,
    member, coalesce.
  cbn. eval_strings. cbn. now rewrite <- app_assoc.
Qed.

Lemma parseReportPath_returns (P : platform) (url : string) (e : value) :
  parseReportPath P url <> Throw e.
Proof.
  destruct (new_URL P url) as [u|x] eqn:Hu.
  - now rewrite (parseReportPath_unfold P url u Hu).
  - now rewrite (parseReportPath_malformed P url x Hu).
Qed.

(** A leaf of the case analysis in which the path resolver threw. *)
Ltac no_such_leaf :=
  match goal with
  | H : parseReportPath _ _ = Throw _ |- _ =>
      now destruct (parseReportPath_returns _ _ _ H)
  end.

(** In a leaf of the case analysis where the catch block runs on a platform
    that throws only [Error] objects. *)
Ltac caught_error :=
  match goal with
  | |- context [ApiExport.on_error ?e ?w] =>
      let He := fresh "He" in
      let n := fresh "n" in
      let m := fresh "m" in
      assert (He : is_error e) by eauto using renderHTML_throws;
      destruct He as (n & m & ->); rewrite on_error_error; cbn
  end.

(** X13: on a platform whose services throw nothing but Error objects, the
    export handler never rejects: whatever the request and whichever step
    fails, every exception is caught and a response is returned. *)
Theorem handler_always_answers (P : platform) (req : request) (w : world) :
  throws_errors P ->
  exists r w', ApiExport.handler P req w = (Ok r, w').
Proof.
  intros (Hf & Hj & He & Hl & Hn & Hc & Hp & Hx & Hu & Hu').
  assert (G : match fst (ApiExport.handler P req w) with
              | Ok _ => True
              | Throw _ => False
              end).
  { crunch. all: try no_such_leaf. all: try caught_error. all: exact I. }
  destruct (ApiExport.handler P req w) as [[r|e] w']; [eauto | destruct G].
Qed.

Lemma stalled_throws_errors : throws_errors stalled_platform.
Proof.
  unfold throws_errors.
  repeat match goal with |- _ /\ _ => split end; intros; cbn in *;
    repeat match goal with
           | H : Ok _ = Ok _ |- _ => injection H as <-; cbn in *
           end;
    first [ congruence
          | match goal with
            | H : Throw _ = Throw _ |- _ =>
                injection H as <-; apply js_error_is_error
            | T : truthy _ = true |- _ => vm_compute in T; discriminate T
            end ].
Qed.

Lemma handler_always_answers_witness :
  exists r w', ApiExport.handler stalled_platform demo_request fresh = (Ok r, w').
Proof.
  apply handler_always_answers. exact stalled_throws_errors.
Defined.

Ltac not_in_trace :=
  let Hin := fresh "Hin" in
  intros Hin; cbn in Hin;
  repeat match type of Hin with
         | _ \/ _ => destruct Hin as [Hin | Hin]; [try discriminate Hin|]
         | False => destruct Hin
         end.

(** X14: the export handler answers 500 exactly when it has logged an error,
    and then the body of the response carries the message of the Error that
    was logged; a run that sends no response at all has logged its error
    too. *)
Theorem errors_are_logged_and_answered (P : platform) (req : request) :
  match fst (ApiExport.handler P req fresh) with
  | Ok r =>
      (status r = 500%Z
       <-> existsb is_log (trace (snd (ApiExport.handler P req fresh))) = true)
      /\ (forall name m,
            In (ELog (js_error name m))
               (trace (snd (ApiExport.handler P req fresh))) ->
            sent r = Json (VObj [("error", VStr m)]))
  | Throw _ =>
      existsb is_log (trace (snd (ApiExport.handler P req fresh))) = true
  end.
Proof.
  crunch. all: try no_such_leaf. all: try caught.
  all: try reflexivity.
  all: split; [split; first [discriminate | reflexivity] |].
  all: intros name m; not_in_trace.
  all: match goal with
       | Hin : ELog ?e = ELog (js_error ?name ?m), E : ApiExport.on_error ?e _ = _
         |- _ =>
           injection Hin as ->; rewrite on_error_error in E;
           now injection E as <-
       end.
Qed.

Lemma errors_are_logged_and_answered_witness :
  exists r w',
    ApiExport.handler stalled_platform demo_request fresh = (Ok r, w')
    /\ sent r = Json (VObj [("error", VStr "Navigation timeout of 30000 ms exceeded")]).
Proof.
  pose proof (errors_are_logged_and_answered stalled_platform demo_request) as H.
  do 2 eexists. split; [reflexivity|].
  hnf in H. destruct H as [_ H].
  apply (H "TimeoutError"). vm_compute. do 4 right. now left.
Defined.

(** X15: on a platform whose browser steps never throw, every run of the
    export handler closes the browser it launched before it sends its
    response, whatever else fails. *)
Theorem session_discipline (P : platform) (req : request) :
  browser_never_throws P ->
  closed_before_send false (trace (snd (ApiExport.handler P req fresh))) = true.
Proof.
  intros (Hl & Hn & Hc & (pdf & Hp) & Hx).
  crunch.
  all: try congruence.
  all: try match goal with
           | H : _ = Throw _ |- _ =>
               rewrite ?Hl, ?Hc, ?Hp in H; discriminate H
           end.
  all: try caught. all: reflexivity.
Qed.

Lemma demo_browser_never_throws : browser_never_throws demo_platform.
Proof.
  unfold browser_never_throws.
  repeat match goal with |- _ /\ _ => split end; try reflexivity.
  now exists demo_pdf.
Qed.

Lemma session_discipline_witness :
  closed_before_send false
    (trace (snd (ApiExport.handler demo_platform demo_request fresh))) = true.
Proof. apply session_discipline. exact demo_browser_never_throws. Defined.

(** X16: the export handler uploads nothing but the PDF it has just printed,
    to the configured bucket, with the upload options of the source, at the
    path made of the two ids parseReportPath derives from the json_url of
    the request. *)
Theorem upload_discipline (P : platform) (req : request)
    (b p : string) (data : buffer) (o : value) :
  In (EUpload b p data o) (trace (snd (ApiExport.handler P req fresh))) ->
  b = ApiExport.BUCKET P /\ o = ApiExport.upload_options
  /\ page_pdf P ApiExport.pdf_options = Ok data
  /\ exists payload url biz rid,
       body req = Some payload /\ json_url payload = Some url
       /\ parseReportPath P url
          = Ok {| bizId := Some biz; reportId := Some rid |}
       /\ p = biz ++ "/" ++ rid ++ "/report.pdf".
Proof.
  crunch. all: try no_such_leaf. all: try caught. all: not_in_trace.
  all: try match goal with
           | Hin : EUpload _ _ _ _ = EUpload _ _ _ _ |- _ =>
               injection Hin as <- <- <- <-
           end.
  all: match goal with
       | Hm : ApiExport.missing (json_url ?q) = false,
         Hi : ApiExport.missing (bizId ?a) || ApiExport.missing (reportId ?a)
              = false,
         Hp : parseReportPath _ _ = Ok ?a |- _ =>
           destruct (json_url q) as [url|] eqn:Hurl;
             [|cbn in Hm; discriminate Hm];
           destruct a as [[biz|] [rid|]]; cbn in Hi;
             rewrite ?orb_true_r in Hi; try discriminate Hi;
           split; [reflexivity | split; [reflexivity | split; [reflexivity|]]];
           exists q, url, biz, rid;
           split; [reflexivity | split; [exact Hurl | split; [exact Hp|reflexivity]]]
       end.
Qed.

Lemma upload_discipline_witness :
  ApiExport.BUCKET demo_platform = "enrich-reports"
  /\ exists payload url biz rid,
       body demo_request = Some payload /\ json_url payload = Some url
       /\ parseReportPath demo_platform url
          = Ok {| bizId := Some biz; reportId := Some rid |}
       /\ "biz1/rep1/report.pdf" = biz ++ "/" ++ rid ++ "/report.pdf".
Proof.
  destruct (upload_discipline demo_platform demo_request
              "enrich-reports" "biz1/rep1/report.pdf" demo_pdf
              ApiExport.upload_options)
    as (Hb & _ & _ & Hex).
  - vm_compute. do 6 right. now left.
  - split; [now symmetry | exact Hex].
Defined.

